(** * htmx-jsx: the HTMX route adapter of [src/htmx.ts]

    A shallow embedding of [createHTMXRouter]: the route-registration
    function [htmx], the endpoint it installs on the Fastify instance, the
    attribute record it returns, and [router.start]; and of the earlier copy
    of the same module in [src/unnamed/part_000].

    Conventions of the embedding.
    - A JavaScript string is the list of its UTF-16 code units.
    - The options of a route are a record after the TypeScript type
      [HTMXRouteOptions]: the method, the swap strategy and the keys of
      [OnHandlers] are the enumerations of that type.
    - A plain object used as a dictionary ([opts.vals], [req.body], the
      returned attribute record) is a [gmap] from property names to values;
      the enumeration order of properties is not modelled.
    - [routeRegistry] is a JavaScript [Map]; it is an association list in
      insertion order, because [router.start] prints its keys in that order.
    - The Fastify instance is the record of the calls the adapter makes on it
      ([register], [get], [route], [listen]).  Whether [app.route] takes a
      route or throws is Fastify's to decide: it is a parameter, of which
      only this is assumed, that an instance that listens takes no route.
      The console is the list of the lines written to it, and
      [process.exit] records the exit code.
    - A call of [htmx] returns the attribute record or throws; the router
      it leaves is the same to a caller that catches the error.
    - A request handler runs in a state-and-exception monad over the console
      and the calls made on [res]; a route handler of the user is any
      computation of that monad, so it may write to both and may throw.
    - SHA-1, [JSON.stringify], [renderToStaticMarkup], [app.listen] and
      [app.route] come from libraries: SHA-1 is implemented after FIPS
      180-4, the others are parameters ([Platform]). *)

From Stdlib Require Import ZArith NArith List Ascii String DecimalString.
From stdpp Require Import base tactics option list gmap fin_maps.
Import ListNotations.

Local Open Scope N_scope.

(** ** JavaScript strings *)

Module JsString.

(** A string value: the sequence of its UTF-16 code units. *)
Definition jsstring : Type := list N.

(** A literal of the source, written with ASCII characters only. *)
Definition js (s : string) : jsstring :=
  map N_of_ascii (list_ascii_of_string s).

(** A literal in which the apostrophe stands for the double quote. *)
Definition js_q (s : string) : jsstring :=
  map (fun c => if N.eqb c 39 then 34 else c) (js s).

(** [a + b] on strings and template literals. *)
Definition concat (a b : jsstring) : jsstring := a ++ b.

(** [s.slice(start)] and [s.slice(0, stop)] for non-negative indices. *)
Definition slice_from (start : nat) (s : jsstring) : jsstring := drop start s.
Definition slice_to (stop : nat) (s : jsstring) : jsstring := take stop s.

(** [s.startsWith(p)]. *)
Fixpoint startsWith (p s : jsstring) : bool :=
  match p, s with
  | [], _ => true
  | _ :: _, [] => false
  | a :: p', b :: s' => N.eqb a b && startsWith p' s'
  end.

(** [s.toLowerCase()] and [s.toUpperCase()] on the code units of the ASCII
    letters.  The program applies them to the keys of [OnHandlers] and to
    the method names only, which are ASCII; code units outside ASCII are
    left as they are here, where JavaScript would consult the Unicode case
    tables. *)
Definition lower_unit (c : N) : N :=
  if (65 <=? c) && (c <=? 90) then c + 32 else c.
Definition upper_unit (c : N) : N :=
  if (97 <=? c) && (c <=? 122) then c - 32 else c.
Definition toLowerCase (s : jsstring) : jsstring := map lower_unit s.
Definition toUpperCase (s : jsstring) : jsstring := map upper_unit s.

(** The code units that [\s] matches and that [trim] removes: WhiteSpace and
    LineTerminator of ECMA-262. *)
Definition is_space (c : N) : bool :=
  (9 <=? c) && (c <=? 13)
  || N.eqb c 32 || N.eqb c 160 || N.eqb c 5760
  || (8192 <=? c) && (c <=? 8202)
  || N.eqb c 8232 || N.eqb c 8233 || N.eqb c 8239 || N.eqb c 8287
  || N.eqb c 12288 || N.eqb c 65279.

Fixpoint trimStart (s : jsstring) : jsstring :=
  match s with
  | c :: s' => if is_space c then trimStart s' else s
  | [] => []
  end.

Definition trimEnd (s : jsstring) : jsstring := rev (trimStart (rev s)).

(** [s.trim()]. *)
Definition trim (s : jsstring) : jsstring := trimEnd (trimStart s).

(** [String(n)] for a non-negative integer. *)
Definition of_N (n : N) : jsstring := js (NilEmpty.string_of_uint (N.to_uint n)).

(** The UTF-8 encoding of a string, as [hash.update(string)] feeds it to the
    digest: a surrogate pair is one code point, a lone surrogate becomes
    U+FFFD. *)
Definition utf8_of_code_point (cp : N) : list N :=
  if cp <? 128 then [cp]
  else if cp <? 2048 then [192 + cp / 64; 128 + cp mod 64]
  else if cp <? 65536 then
    [224 + cp / 4096; 128 + (cp / 64) mod 64; 128 + cp mod 64]
  else
    [240 + cp / 262144; 128 + (cp / 4096) mod 64;
     128 + (cp / 64) mod 64; 128 + cp mod 64].

Definition is_high_surrogate (c : N) : bool := (55296 <=? c) && (c <=? 56319).
Definition is_low_surrogate (c : N) : bool := (56320 <=? c) && (c <=? 57343).

Fixpoint utf8_encode (s : jsstring) : list N :=
  match s with
  | [] => []
  | c :: s' =>
      if is_high_surrogate c then
        match s' with
        | d :: s'' =>
            if is_low_surrogate d then
              utf8_of_code_point (65536 + (c - 55296) * 1024 + (d - 56320))
                ++ utf8_encode s''
            else utf8_of_code_point 65533 ++ utf8_encode s'
        | [] => utf8_of_code_point 65533
        end
      else if is_low_surrogate c then utf8_of_code_point 65533 ++ utf8_encode s'
      else utf8_of_code_point c ++ utf8_encode s'
  end.

End JsString.
Export JsString.

(** ** SHA-1, as [createHash("sha1")] of Node's [crypto] computes it
    (FIPS 180-4), on bytes; 32-bit words are [N] reduced modulo [2^32]. *)

Module Sha1.

Definition w32 (x : N) : N := x mod 4294967296.
Definition add32 (a b : N) : N := w32 (a + b).
Definition rotl (n x : N) : N :=
  N.lor (w32 (N.shiftl x n)) (N.shiftr x (32 - n)).
Definition not32 (x : N) : N := N.lxor x 4294967295.

Definition Ch (x y z : N) : N := N.lxor (N.land x y) (N.land (not32 x) z).
Definition Parity (x y z : N) : N := N.lxor (N.lxor x y) z.
Definition Maj (x y z : N) : N :=
  N.lxor (N.lxor (N.land x y) (N.land x z)) (N.land y z).

Definition f (t : N) : N -> N -> N -> N :=
  if t <? 20 then Ch else if t <? 40 then Parity
  else if t <? 60 then Maj else Parity.

Definition K (t : N) : N :=
  if t <? 20 then 1518500249 else if t <? 40 then 1859775393
  else if t <? 60 then 2400959708 else 3395469782.

(** Padding: a one bit, zero bits up to 448 modulo 512, the bit length on
    64 bits, big-endian. *)
Definition be_bytes (count : nat) (x : N) : list N :=
  map (fun i => (x / 256 ^ N.of_nat i) mod 256) (rev (seq 0 count)).

Definition pad (msg : list N) : list N :=
  let len := N.of_nat (length msg) in
  msg ++ [128] ++ repeat 0 (N.to_nat ((119 - len mod 64) mod 64))
      ++ be_bytes 8 (8 * len).

Definition be_word (bs : list N) : N :=
  fold_left (fun acc b => acc * 256 + b) bs 0.

Fixpoint chunks {A} (fuel size : nat) (l : list A) : list (list A) :=
  match fuel with
  | O => []
  | S fuel' =>
      match l with
      | [] => []
      | _ => take size l :: chunks fuel' size (drop size l)
      end
  end.

Definition words (block : list N) : list N :=
  map be_word (chunks 16 4 block).

(** The message schedule [W_0 .. W_79]. *)
Fixpoint schedule (more : nat) (w : list N) : list N :=
  match more with
  | O => w
  | S more' =>
      let t := length w in
      let at_ (k : nat) := nth (t - k) w 0 in
      schedule more'
        (w ++ [rotl 1 (N.lxor (N.lxor (at_ 3%nat) (at_ 8%nat))
                              (N.lxor (at_ 14%nat) (at_ 16%nat)))])
  end.

Record hash_state : Type :=
  HashState { ha : N; hb : N; hc : N; hd : N; he : N }.

Definition initial : hash_state :=
  HashState 1732584193 4023233417 2562383102 271733878 3285377520.

Definition round (st : hash_state * N) (wt : N) : hash_state * N :=
  let '(HashState a b c d e, t) := st in
  let T := add32 (add32 (add32 (add32 (rotl 5 a) (f t b c d)) e) (K t)) wt in
  (HashState T a (rotl 30 b) c d, t + 1).

Definition compress (h : hash_state) (block : list N) : hash_state :=
  let w := schedule 64 (words block) in
  let '(HashState a b c d e, _) := fold_left round w (h, 0) in
  HashState (add32 (ha h) a) (add32 (hb h) b) (add32 (hc h) c)
            (add32 (hd h) d) (add32 (he h) e).

Definition digest (msg : list N) : list N :=
  let p := pad msg in
  let h := fold_left compress (chunks (length p) 64 p) initial in
  flat_map (be_bytes 4) [ha h; hb h; hc h; hd h; he h].

(** [digest("hex")]: two lowercase hexadecimal digits for each byte. *)
Definition hex_digit (d : N) : N := if d <? 10 then 48 + d else 87 + d.
Definition hex (bytes : list N) : jsstring :=
  flat_map (fun b => [hex_digit (b / 16); hex_digit (b mod 16)]) bytes.

Definition sha1_hex (s : jsstring) : jsstring := hex (digest (utf8_encode s)).

End Sha1.

(** ** Regular expressions

    The fragment of JavaScript's regular expressions that the source uses:
    a sequence of character classes, each taken once, optionally ([?]) or any
    number of times ([*], greedy), between an optional [^] and an optional
    [$], without flags.  Matching is by backtracking in JavaScript's order:
    a greedy quantifier takes as much as it can and gives back one code unit
    at a time. *)

Module Regex.

Inductive cls : Type :=
| Char (c : N)        (* a literal character *)
| NotChar (c : N)     (* [^c] *)
| Space.              (* \s *)

Inductive quant : Type := Once | Optional | Star.

Definition item : Type := (cls * quant)%type.

Record regex : Type := Regex {
  at_start : bool;      (* the pattern begins with ^ *)
  items : list item;
  at_end : bool         (* the pattern ends with $ *)
}.

Definition accepts (k : cls) (c : N) : bool :=
  match k with
  | Char d => N.eqb c d
  | NotChar d => negb (N.eqb c d)
  | Space => is_space c
  end.

(** The literal characters of a pattern. *)
Definition lit (s : string) : list item := map (fun c => (Char c, Once)) (js s).

(** [match_items p e s]: the input left after the first way, in backtracking
    order, of matching [p] (followed by the end of input when [e]) at the
    head of [s]. *)
Fixpoint match_items (p : list item) (e : bool) (s : jsstring) {struct p}
  : option jsstring :=
  match p with
  | [] => if e then match s with [] => Some [] | _ :: _ => None end else Some s
  | (k, Once) :: p' =>
      match s with
      | c :: s' => if accepts k c then match_items p' e s' else None
      | [] => None
      end
  | (k, Optional) :: p' =>
      match s with
      | c :: s' =>
          if accepts k c then
            match match_items p' e s' with
            | Some r => Some r
            | None => match_items p' e s
            end
          else match_items p' e s
      | [] => match_items p' e s
      end
  | (k, Star) :: p' =>
      (fix star (s : jsstring) : option jsstring :=
         match s with
         | c :: s' =>
             if accepts k c then
               match star s' with
               | Some r => Some r
               | None => match_items p' e s
               end
             else match_items p' e s
         | [] => match_items p' e s
         end) s
  end.

(** The leftmost match from some position on: the text before it and the
    text after it. *)
Fixpoint search (r : regex) (s : jsstring) : option (jsstring * jsstring) :=
  match match_items (items r) (at_end r) s with
  | Some rest => Some ([], rest)
  | None =>
      match s with
      | [] => None
      | c :: s' =>
          match search r s' with
          | Some (before, rest) => Some (c :: before, rest)
          | None => None
          end
      end
  end.

Definition exec (r : regex) (s : jsstring) : option (jsstring * jsstring) :=
  if at_start r then
    match match_items (items r) (at_end r) s with
    | Some rest => Some ([], rest)
    | None => None
    end
  else search r s.

(** [s.replace(r, by)] for a regular expression without the [g] flag and a
    replacement without [$] patterns: the first match is replaced. *)
Definition replace (r : regex) (by_ : jsstring) (s : jsstring) : jsstring :=
  match exec r s with
  | Some (before, rest) => before ++ by_ ++ rest
  | None => s
  end.

End Regex.

(** ** Functions as values

    What the adapter observes of a function: its source text
    ([Function.prototype.toString]) and what a call does. *)

Record Fn (Behaviour : Type) : Type := mkFn {
  toString : jsstring;
  call : Behaviour
}.
Arguments mkFn {Behaviour} _ _.
Arguments toString {Behaviour} _.
Arguments call {Behaviour} _.

(** ** [hashFn] *)

Definition hashFn {B} (fn : Fn B) : jsstring :=
  slice_to 10 (Sha1.sha1_hex (toString fn)).

(** ** [OnHandlers] and [convertToHXAttribute] *)

(** The keys of [OnHandlers]. *)
Inductive OnKey : Type :=
| onClick | onChange | onSubmit | onMouseEnter | onMouseLeave | onInput
| onFocus | onBlur | onKeyDown | onKeyUp | onMouseDown | onMouseUp
| onBeforeRequest | onAfterRequest.

Definition key_name (k : OnKey) : jsstring :=
  match k with
  | onClick => js "onClick"
  | onChange => js "onChange"
  | onSubmit => js "onSubmit"
  | onMouseEnter => js "onMouseEnter"
  | onMouseLeave => js "onMouseLeave"
  | onInput => js "onInput"
  | onFocus => js "onFocus"
  | onBlur => js "onBlur"
  | onKeyDown => js "onKeyDown"
  | onKeyUp => js "onKeyUp"
  | onMouseDown => js "onMouseDown"
  | onMouseUp => js "onMouseUp"
  | onBeforeRequest => js "onBeforeRequest"
  | onAfterRequest => js "onAfterRequest"
  end.

Definition all_on_keys : list OnKey :=
  [onClick; onChange; onSubmit; onMouseEnter; onMouseLeave; onInput; onFocus;
   onBlur; onKeyDown; onKeyUp; onMouseDown; onMouseUp; onBeforeRequest;
   onAfterRequest].

#[global] Instance OnKey_eq_dec : EqDecision OnKey.
Proof. solve_decision. Defined.

(** [key as keyof OnHandlers]: the key that a property name denotes. *)
Definition on_key_of_name (name : jsstring) : option OnKey :=
  find (fun k => bool_decide (key_name k = name)) all_on_keys.

Definition convertToHXAttribute (key : jsstring) : jsstring :=
  if bool_decide (key = js "onBeforeRequest") then js "hx-on::before-request"
  else if bool_decide (key = js "onAfterRequest") then js "hx-on::after-request"
  else concat (js "hx-on:") (slice_from 2 (toLowerCase key)).

(** The three patterns of the [replace] chain on a handler's source. *)
Definition re_function_wrapper : Regex.regex :=   (* /^function\s*\([^)]*\)\s*{/ *)
  Regex.Regex true
    (Regex.lit "function" ++ [(Regex.Space, Regex.Star)] ++ Regex.lit "("
       ++ [(Regex.NotChar 41, Regex.Star)] ++ Regex.lit ")"
       ++ [(Regex.Space, Regex.Star)] ++ Regex.lit "{")
    false.

Definition re_arrow_wrapper : Regex.regex :=      (* /^\(?[^)]*\)?\s*=>\s*{/ *)
  Regex.Regex true
    ([(Regex.Char 40, Regex.Optional); (Regex.NotChar 41, Regex.Star);
      (Regex.Char 41, Regex.Optional); (Regex.Space, Regex.Star)]
       ++ Regex.lit "=>" ++ [(Regex.Space, Regex.Star)] ++ Regex.lit "{")
    false.

Definition re_closing_brace : Regex.regex :=      (* /}$/ *)
  Regex.Regex false (Regex.lit "}") true.

(** [handlerString]: the text of an event handler as it is put in the
    attribute. *)
Definition handlerString (source : jsstring) : jsstring :=
  trim
    (Regex.replace re_closing_brace []
       (Regex.replace re_arrow_wrapper []
          (Regex.replace re_function_wrapper [] source))).

(** ** What the adapter takes from its environment

    The types and library functions that the source imports or receives and
    does not define: the values stored in plain objects, React elements and
    [renderToStaticMarkup], thrown values, Fastify's option objects and
    request, [JSON.stringify] on an object, the outcome of [app.listen], and
    whether [app.route] accepts a route. *)

Class Platform : Type := {
  Value : Type;
  ReactElement : Type;
  Exn : Type;
  FastifyServerOptions : Type;
  FastifyHttpOptions : Type;
  FastifyRequest : Type;
  (** [req.body]; [None] when it is [undefined] or [null]. *)
  req_body : FastifyRequest -> option (gmap jsstring Value);
  (** [JSON.stringify(o)] for an object [o]. *)
  JSON_stringify_object : gmap jsstring Value -> jsstring;
  (** [renderToStaticMarkup(jsx)]: the markup, or what it throws. *)
  renderToStaticMarkup : ReactElement -> Exn + jsstring;
  (** [await app.listen({ port, host })]: [None] when the server is
      listening, [Some err] when the promise is rejected with [err]. *)
  listen_error : N -> jsstring -> option Exn;
  (** The [method] and the [url] properties of an object of route options,
      when it has them, each a string. *)
  options_method : FastifyHttpOptions -> option jsstring;
  options_url : FastifyHttpOptions -> option jsstring;
  (** [app.route(r)]: what Fastify throws, if it refuses the route, given
      the listening state of the instance, the method, URL and options of
      each route it has, and those of [r]. *)
  route_error :
    option (N * jsstring) ->
    list (jsstring * jsstring * option FastifyHttpOptions) ->
    jsstring * jsstring * option FastifyHttpOptions -> option Exn;
  (** An instance that is listening refuses every route
      ([FST_ERR_INSTANCE_ALREADY_LISTENING]). *)
  route_error_listening :
    forall l shapes shape, is_Some l -> is_Some (route_error l shapes shape)
}.

Section Adapter.

Context `{P : Platform}.

Abbreviation Obj := (gmap jsstring Value).

(** A value of the returned record: a string, or [undefined]. *)
Inductive JsVal : Type :=
| JUndefined
| JString (s : jsstring).

Abbreviation Attrs := (gmap jsstring JsVal).

(** *** The console *)

Inductive LogArg : Type :=
| LString (s : jsstring)
| LNumber (n : N)
| LError (e : Exn)
| LValue (body : option Obj)                              (* [req.body] *)
| LRouteOptions (target swap : jsstring) (vals : option Obj)
| LStrings (l : list jsstring)
| LRecord (attrs : Attrs).

Inductive Stream : Type := Stdout | Stderr.

(** The lines written so far, oldest first. *)
Definition Console : Type := list (Stream * list LogArg).

Definition console_log (args : list LogArg) (c : Console) : Console :=
  c ++ [(Stdout, args)].
Definition console_error (args : list LogArg) (c : Console) : Console :=
  c ++ [(Stderr, args)].

(** *** The reply and the monad of a request handler

    [res] is the list of the calls made on it, oldest first.  A request
    handler runs on the console and the reply, and either completes or
    throws. *)

Inductive ReplyCall : Type :=
| Header (name value : jsstring)
| Status (code : N)
| Send (payload : jsstring).

Definition FastifyReply : Type := list ReplyCall.

Record World : Type := mkWorld {
  w_console : Console;
  w_res : FastifyReply
}.

Definition Endpoint (A : Type) : Type := World -> (Exn + A) * World.

Definition ret {A} (a : A) : Endpoint A := fun w => (inr a, w).
Definition throw {A} (e : Exn) : Endpoint A := fun w => (inl e, w).
Definition bind {A B} (m : Endpoint A) (k : A -> Endpoint B) : Endpoint B :=
  fun w =>
    match m w with
    | (inr a, w') => k a w'
    | (inl e, w') => (inl e, w')
    end.
Definition try_catch {A} (body : Endpoint A) (handler : Exn -> Endpoint A)
  : Endpoint A :=
  fun w =>
    match body w with
    | (inr a, w') => (inr a, w')
    | (inl e, w') => handler e w'
    end.
Definition lift {A} (r : Exn + A) : Endpoint A :=
  match r with inl e => throw e | inr a => ret a end.
Definition on_console (f : Console -> Console) : Endpoint unit :=
  fun w => (inr tt, mkWorld (f (w_console w)) (w_res w)).
Definition on_res (calls : list ReplyCall) : Endpoint unit :=
  fun w => (inr tt, mkWorld (w_console w) (w_res w ++ calls)).

Notation "x <- m ;; k" := (bind m (fun x => k))
  (at level 100, m at next level, right associativity).
Notation "m ;;; k" := (bind m (fun _ => k))
  (at level 100, right associativity).

(** *** The types of the source *)

Record HandlerArgs : Type := mkArgs {
  data : Obj;
  req : FastifyRequest
  (* [res] is the reply of the [World] the handler runs in *)
}.

(** A route handler: its source text, and what a call does: it returns an
    element, or throws (or returns a promise that is rejected). *)
Definition RouteHandler : Type := Fn (HandlerArgs -> Endpoint ReactElement).

(** An event handler runs in the browser; the server reads its source. *)
Definition EventHandler : Type := Fn unit.

Inductive Method : Type := GET | POST | PUT | DELETE | PATCH.

Definition method_name (m : Method) : jsstring :=
  match m with
  | GET => js "GET" | POST => js "POST" | PUT => js "PUT"
  | DELETE => js "DELETE" | PATCH => js "PATCH"
  end.

Inductive Swap : Type :=
| innerHTML | outerHTML | beforebegin | afterbegin | beforeend | afterend
| delete.

Definition swap_name (s : Swap) : jsstring :=
  match s with
  | innerHTML => js "innerHTML" | outerHTML => js "outerHTML"
  | beforebegin => js "beforebegin" | afterbegin => js "afterbegin"
  | beforeend => js "beforeend" | afterend => js "afterend"
  | delete => js "delete"
  end.

(** [HTMXRouteOptions<T>].  An optional property is [None] when it is
    absent or [undefined].  [on] holds the properties of the [OnHandlers]
    part in the order of the object literal; a key may be present with the
    value [undefined], and of two entries for one key the later counts. *)
Record HTMXRouteOptions : Type := mkOpts {
  handler : RouteHandler;
  method : option Method;
  target : option jsstring;
  swap : option Swap;
  vals : option Obj;
  routeOptions : option FastifyHttpOptions;
  on : list (OnKey * option EventHandler)
}.

(** *** The Fastify instance *)

Inductive Plugin : Type := formbody.

Record Route : Type := mkRoute {
  route_method : jsstring;
  route_url : jsstring;
  route_options : option FastifyHttpOptions;
  route_handler : FastifyRequest -> Endpoint unit
}.

Record FastifyInstance : Type := mkApp {
  server_options : option FastifyServerOptions;
  plugins : list Plugin;          (* [app.register] *)
  routes : list Route;            (* [app.get], [app.route], oldest first *)
  listening : option (N * jsstring)   (* port and host *)
}.

(** [fastify(options)]. *)
Definition fastify (o : option FastifyServerOptions) : FastifyInstance :=
  mkApp o [] [] None.

Definition app_register (p : Plugin) (a : FastifyInstance) : FastifyInstance :=
  mkApp (server_options a) (plugins a ++ [p]) (routes a) (listening a).

(** [app.get(url, handler)], as [createHTMXRouter] calls it on the instance
    it starts from: an instance that takes the route, as a new one does. *)
Definition app_get (url : jsstring) (handler : FastifyRequest -> Endpoint unit)
    (a : FastifyInstance) : FastifyInstance :=
  mkApp (server_options a) (plugins a)
    (routes a ++ [mkRoute (js "GET") url None handler]) (listening a).

(** What the server knows of a route besides its handler. *)
Definition route_shape (r : Route) : jsstring * jsstring * option FastifyHttpOptions :=
  (route_method r, route_url r, route_options r).

(** [app.route(r)]: Fastify throws when it refuses the route, as it does
    once the instance is listening, and has the route otherwise. *)
Definition app_route (r : Route) (a : FastifyInstance) : Exn + FastifyInstance :=
  match route_error (listening a) (map route_shape (routes a)) (route_shape r) with
  | Some e => inl e
  | None => inr (mkApp (server_options a) (plugins a) (routes a ++ [r]) (listening a))
  end.

Definition app_listening (port : N) (host : jsstring) (a : FastifyInstance)
  : FastifyInstance :=
  mkApp (server_options a) (plugins a) (routes a) (Some (port, host)).

(** [HTMXRouterConfig]. *)
Record HTMXRouterConfig : Type := mkConfig {
  prefix : option jsstring;
  app : option FastifyInstance;
  fastifyOptions : option FastifyServerOptions;
  useFormbody : option bool;
  entryPoint : option ReactElement;
  rootPath : option jsstring;
  port : option N;
  host : option jsstring;
  debug : option bool
}.

(** *** [Map<string, RouteHandler>] *)

Definition RouteMap : Type := list (jsstring * RouteHandler).

Definition Map_has (m : RouteMap) (key : jsstring) : bool :=
  existsb (fun e => bool_decide (fst e = key)) m.

Fixpoint Map_set (m : RouteMap) (key : jsstring) (v : RouteHandler) : RouteMap :=
  match m with
  | [] => [(key, v)]
  | (k, w) :: m' =>
      if bool_decide (k = key) then (k, v) :: m' else (k, w) :: Map_set m' key v
  end.

Definition Map_keys (m : RouteMap) : list jsstring := map fst m.

(** *** The state of a router

    What [createHTMXRouter] closes over and what it acts on: the registry,
    the Fastify instance, the console, and the exit code of the process
    once [process.exit] was called. *)
Record Router : Type := mkRouter {
  routeRegistry : RouteMap;
  server : FastifyInstance;
  console : Console;
  exit_code : option N
}.

(** *** [baseLayout] *)

Definition baseLayout (content : jsstring) : jsstring :=
  js_q "<!DOCTYPE html>
<html lang='en'>
    <head>
        <meta charset='UTF-8' />
        <meta name='viewport' content='width=device-width, initial-scale=1.0' />
        <title>Document</title>
    </head>
    <body>
        <div id='main'>" ++ content ++ js_q "</div>
        <script src='https://unpkg.com/htmx.org@2.0.4'></script>
    </body>
</html>".

(** *** [createHTMXRouter]

    [log] and [logError] of the closure; [debug] is [config.debug ?? false]. *)

Definition log (debug : bool) (args : list LogArg) (c : Console) : Console :=
  if debug then console_log (LString (js "[HTMX]") :: args) c else c.

Definition logError (args : list LogArg) (c : Console) : Console :=
  console_error (LString (js "[HTMX]") :: args) c.

(** The handler of the entry point: [app.get(mount, async (_, res) => ...)]. *)
Definition entry_handler (entryPoint : ReactElement) (_ : FastifyRequest)
  : Endpoint unit :=
  content <- lift (renderToStaticMarkup entryPoint) ;;
  let html := baseLayout content in
  on_res [Header (js "Content-Type") (js "text/html"); Send html].

(** The router right after [createHTMXRouter(config)] returned, on a console
    that holds [c] and a process that has not exited. *)
Definition createHTMXRouter (config : HTMXRouterConfig) (c : Console) : Router :=
  let prefix := default (js "/api") (prefix config) in
  let app := default (fastify (fastifyOptions config)) (app config) in
  let debug := default false (debug config) in
  let c := log debug [LString (js "Initializing router with prefix:"); LString prefix] c in
  let '(app, c) :=
    if default true (useFormbody config)
    then (app_register formbody app, log debug [LString (js "Registered formbody plugin")] c)
    else (app, c) in
  let routeRegistry : RouteMap := [] in
  let '(app, c) :=
    match entryPoint config with
    | Some entry =>
        let mount := default (js "/") (rootPath config) in
        let c := log debug [LString (js "Setting up entry point at:"); LString mount] c in
        (app_get mount (entry_handler entry) app, c)
    | None => (app, c)
    end in
  mkRouter routeRegistry app c None.

(** *** The endpoint that [htmx] installs

    The data passed to the handler:
    [{ ...(opts.vals ?? {}), ...(req.body ?? {}) }].  Properties are copied
    from left to right, so the object on the right has the last word. *)
Definition spread {V} (left right : gmap jsstring V) : gmap jsstring V :=
  right ∪ left.

Definition request_data (opts : HTMXRouteOptions) (req : FastifyRequest) : Obj :=
  spread (default ∅ (vals opts)) (default ∅ (req_body req)).

(** The body of the [try] block. *)
Definition respond (debug : bool) (opts : HTMXRouteOptions) (req : FastifyRequest)
  : Endpoint unit :=
  let data := request_data opts req in
  jsx <- call (handler opts) (mkArgs data req) ;;
  html <- lift (renderToStaticMarkup jsx) ;;
  on_console (log debug [LString (js "Generated HTML response length:");
                         LNumber (N.of_nat (length html))]) ;;;
  on_res [Header (js "Content-Type") (js "text/html"); Send html].

(** The [catch] block. *)
Definition server_error (e : Exn) : Endpoint unit :=
  on_console (logError [LString (js "Handler error:"); LError e]) ;;;
  on_res [Status 500; Send (js "Server error")].

(** [handler: async (req, res) => { ... }], closed over [method], [path] and
    [opts]. *)
Definition endpoint (debug : bool) (method path : jsstring)
    (opts : HTMXRouteOptions) (req : FastifyRequest) : Endpoint unit :=
  on_console (log debug [LString (js "Handling request: " ++ method ++ js " " ++ path)]) ;;;
  on_console (log debug [LString (js "Request body:"); LValue (req_body req)]) ;;;
  try_catch (respond debug opts req) server_error.

(** *** The attribute record *)

(** [JSON.stringify(opts.vals)]. *)
Definition JSON_stringify (v : option Obj) : JsVal :=
  match v with
  | None => JUndefined
  | Some o => JString (JSON_stringify_object o)
  end.

(** [Object.keys(opts)]; the order between the on-keys and the others is of
    no consequence, the filter below keeps the on-keys only. *)
Definition key_if_present {A} (name : string) (o : option A) : list jsstring :=
  match o with Some _ => [js name] | None => [] end.

Definition Object_keys (opts : HTMXRouteOptions) : list jsstring :=
  [js "handler"] ++ key_if_present "method" (method opts)
    ++ key_if_present "target" (target opts)
    ++ key_if_present "swap" (swap opts)
    ++ key_if_present "vals" (vals opts)
    ++ key_if_present "routeOptions" (routeOptions opts)
    ++ map (fun e => key_name (fst e)) (on opts).

(** The value of a key of [OnHandlers]: that of its last entry. *)
Definition on_value (l : list (OnKey * option EventHandler)) (k : OnKey)
  : option EventHandler :=
  fold_left (fun acc e => if bool_decide (fst e = k) then snd e else acc) l None.

(** [opts[key as keyof OnHandlers]]. *)
Definition get_on (opts : HTMXRouteOptions) (key : jsstring) : option EventHandler :=
  match on_key_of_name key with
  | Some k => on_value (on opts) k
  | None => None
  end.

(** One step of the [map]: [None] is the empty array that the later [filter]
    drops, [Some] a pair of attribute name and value. *)
Definition hx_on_entry (opts : HTMXRouteOptions) (key : jsstring)
  : option (jsstring * jsstring) :=
  match get_on opts key with
  | None => None
  | Some handler => Some (convertToHXAttribute key, handlerString (toString handler))
  end.

(** [Object.fromEntries]: of two entries for one name the later counts. *)
Definition Object_fromEntries (entries : list (jsstring * jsstring)) : Attrs :=
  fold_left (fun o e => <[fst e := JString (snd e)]> o) entries ∅.

Definition hxOnHandlers (opts : HTMXRouteOptions) : Attrs :=
  let onHandlers := filter (fun key => startsWith (js "on") key = true) (Object_keys opts) in
  Object_fromEntries (omap (hx_on_entry opts) onHandlers).

(** [opts.method?.toUpperCase() ?? "POST"]. *)
Definition method_of (opts : HTMXRouteOptions) : jsstring :=
  default (js "POST") (toUpperCase <$> (method_name <$> method opts)).

(** [`${prefix}/${id}`]. *)
Definition path_of (config : HTMXRouterConfig) (opts : HTMXRouteOptions) : jsstring :=
  let prefix := default (js "/api") (prefix config) in
  let id := hashFn (handler opts) in
  prefix ++ js "/" ++ id.

Definition hxAttributes (config : HTMXRouterConfig) (opts : HTMXRouteOptions) : Attrs :=
  let method := method_of opts in
  let path := path_of config opts in
  let hxAttr := js "hx-" ++ toLowerCase method in
  spread
    (<[js "hx-vals" := JSON_stringify (vals opts)]>
       (<[js "hx-swap" := JString (default (js "innerHTML") (swap_name <$> swap opts))]>
          (<[js "hx-target" := JString (default (js "body") (target opts))]>
             (<[hxAttr := JString path]> ∅))))
    (hxOnHandlers opts).

(** *** [htmx], the route-registration function *)

(** The object handed to [app.route]:
    [{ method, url: path, ...(opts.routeOptions ?? {}), handler }].  The
    spread comes after [method] and [url], so a method or a URL that the
    route options carry replaces them; the handler comes last. *)
Definition route_object (debug : bool) (method path : jsstring)
    (opts : HTMXRouteOptions) : Route :=
  mkRoute
    (default method (routeOptions opts ≫= options_method))
    (default path (routeOptions opts ≫= options_url))
    (routeOptions opts)
    (endpoint debug method path opts).

(** A call of [htmx] returns the attribute record, or throws what
    [app.route] throws; by then the path is in the registry. *)
Definition htmx (config : HTMXRouterConfig) (opts : HTMXRouteOptions) (st : Router)
  : (Exn + Attrs) * Router :=
  let debug := default false (debug config) in
  let method := method_of opts in
  let path := path_of config opts in
  if negb (Map_has (routeRegistry st) path) then
    let c := log debug [LString (js "Registering new route: " ++ method ++ js " " ++ path)]
               (console st) in
    let c := log debug [LString (js "Route options:");
                        LRouteOptions (default (js "body") (target opts))
                          (default (js "innerHTML") (swap_name <$> swap opts))
                          (vals opts)] c in
    let registry := Map_set (routeRegistry st) path (handler opts) in
    match app_route (route_object debug method path opts) (server st) with
    | inl e => (inl e, mkRouter registry (server st) c (exit_code st))
    | inr app => (inr (hxAttributes config opts), mkRouter registry app c (exit_code st))
    end
  else (inr (hxAttributes config opts), st).

(** *** [router.start] *)

Definition start (config : HTMXRouterConfig) (st : Router) : Router :=
  let debug := default false (debug config) in
  let port := default 3000 (port config) in
  let host := default (js "localhost") (host config) in
  match listen_error port host with
  | None =>
      let app := app_listening port host (server st) in
      let c := console_log
                 [LString (js "[HTMX] Server listening on http://" ++ host ++ js ":" ++ of_N port)]
                 (console st) in
      let c := log debug [LString (js "Debug mode enabled")] c in
      let c := log debug [LString (js "Registered routes:");
                          LStrings (Map_keys (routeRegistry st))] c in
      mkRouter (routeRegistry st) app c (exit_code st)
  | Some err =>
      let c := logError [LString (js "Error starting server:"); LError err] (console st) in
      mkRouter (routeRegistry st) (server st) c (Some 1)
  end.

End Adapter.

(** ** The copy of the adapter in [src/unnamed/part_000]

    The same router without the debug log: [hxAttr] is chosen by a [switch],
    the attribute record is printed at each call that returns, and the
    messages on the console have no [[HTMX]] tag. *)

Module Part000.
Section Adapter.

Context `{P : Platform}.

Abbreviation Attrs := (gmap jsstring JsVal).

Notation "x <- m ;; k" := (bind m (fun x => k))
  (at level 100, m at next level, right associativity).
Notation "m ;;; k" := (bind m (fun _ => k))
  (at level 100, right associativity).

Definition createHTMXRouter (config : HTMXRouterConfig) (c : Console) : Router :=
  let app := default (fastify (fastifyOptions config)) (app config) in
  let app := if default true (useFormbody config) then app_register formbody app else app in
  let routeRegistry : RouteMap := [] in
  let app :=
    match entryPoint config with
    | Some entry =>
        let mount := default (js "/") (rootPath config) in
        app_get mount (entry_handler entry) app
    | None => app
    end in
  mkRouter routeRegistry app c None.

Definition respond (opts : HTMXRouteOptions) (req : FastifyRequest) : Endpoint unit :=
  let data := request_data opts req in
  jsx <- call (handler opts) (mkArgs data req) ;;
  html <- lift (renderToStaticMarkup jsx) ;;
  on_res [Header (js "Content-Type") (js "text/html"); Send html].

Definition server_error (e : Exn) : Endpoint unit :=
  on_console (console_error [LString (js "HTMX handler error:"); LError e]) ;;;
  on_res [Status 500; Send (js "Server error")].

Definition endpoint (opts : HTMXRouteOptions) (req : FastifyRequest) : Endpoint unit :=
  try_catch (respond opts req) server_error.

(** The [switch (method)]. *)
Definition hxAttr_of (method : jsstring) : jsstring :=
  if bool_decide (method = js "GET") then js "hx-get"
  else if bool_decide (method = js "POST") then js "hx-post"
  else if bool_decide (method = js "PUT") then js "hx-put"
  else if bool_decide (method = js "DELETE") then js "hx-delete"
  else if bool_decide (method = js "PATCH") then js "hx-patch"
  else js "hx-post".

Definition attrbs (config : HTMXRouterConfig) (opts : HTMXRouteOptions) : Attrs :=
  let method := method_of opts in
  let path := path_of config opts in
  let hxAttr := hxAttr_of method in
  spread
    (<[js "hx-vals" := JSON_stringify (vals opts)]>
       (<[js "hx-swap" := JString (default (js "innerHTML") (swap_name <$> swap opts))]>
          (<[js "hx-target" := JString (default (js "body") (target opts))]>
             (<[hxAttr := JString path]> ∅))))
    (hxOnHandlers opts).

(** The object handed to [app.route]. *)
Definition route_object (method path : jsstring) (opts : HTMXRouteOptions) : Route :=
  mkRoute
    (default method (routeOptions opts ≫= options_method))
    (default path (routeOptions opts ≫= options_url))
    (routeOptions opts)
    (endpoint opts).

Definition htmx (config : HTMXRouterConfig) (opts : HTMXRouteOptions) (st : Router)
  : (Exn + Attrs) * Router :=
  let method := method_of opts in
  let path := path_of config opts in
  let registered :=
    if negb (Map_has (routeRegistry st) path) then
      let registry := Map_set (routeRegistry st) path (handler opts) in
      match app_route (route_object method path opts) (server st) with
      | inl e => inl (e, mkRouter registry (server st) (console st) (exit_code st))
      | inr app => inr (mkRouter registry app (console st) (exit_code st))
      end
    else inr st in
  match registered with
  | inl (e, st) => (inl e, st)
  | inr st =>
      let attrbs := attrbs config opts in
      (inr attrbs,
       mkRouter (routeRegistry st) (server st)
         (console_log [LRecord attrbs] (console st)) (exit_code st))
  end.

Definition start (config : HTMXRouterConfig) (st : Router) : Router :=
  let port := default 3000 (port config) in
  let host := default (js "localhost") (host config) in
  match listen_error port host with
  | None =>
      let app := app_listening port host (server st) in
      let c := console_log
                 [LString (js "Server listening on http://" ++ host ++ js ":" ++ of_N port)]
                 (console st) in
      mkRouter (routeRegistry st) app c (exit_code st)
  | Some err =>
      let c := console_error [LString (js "Error starting server:"); LError err]
                 (console st) in
      mkRouter (routeRegistry st) (server st) c (Some 1)
  end.

End Adapter.
End Part000.

(** * What the properties are stated with *)

Section Observations.

Context `{P : Platform}.

(** The name of the trigger attribute for each method. *)
Definition trigger_name (m : Method) : jsstring :=
  match m with
  | GET => js "hx-get" | POST => js "hx-post" | PUT => js "hx-put"
  | DELETE => js "hx-delete" | PATCH => js "hx-patch"
  end.

(** *** The life of a router: calls of [htmx] and of [router.start] *)

Inductive Call : Type :=
| CallHtmx (opts : HTMXRouteOptions)
| CallStart.

Definition step (config : HTMXRouterConfig) (st : Router) (c : Call) : Router :=
  match c with
  | CallHtmx opts => snd (htmx config opts st)
  | CallStart => start config st
  end.

Definition part000_step (config : HTMXRouterConfig) (st : Router) (c : Call) : Router :=
  match c with
  | CallHtmx opts => snd (Part000.htmx config opts st)
  | CallStart => Part000.start config st
  end.

(** The world in which the [try] block of the endpoint starts: the two debug
    lines are on the console. *)
Definition at_try (debug : bool) (method path : jsstring) (req : FastifyRequest)
    (w : World) : World :=
  mkWorld
    (log debug [LString (js "Request body:"); LValue (req_body req)]
       (log debug [LString (js "Handling request: " ++ method ++ js " " ++ path)]
          (w_console w)))
    (w_res w).

(** The method and the path of the routes on the server of a new router after
    one call of [htmx]. *)
Definition first_endpoints (config : HTMXRouterConfig)
    (opts : HTMXRouteOptions) : list (jsstring * jsstring) :=
  map (fun r => (route_method r, route_url r))
    (routes (server (snd (htmx config opts (createHTMXRouter config []))))).

(** *** Further observations *)

(** A lowercase hexadecimal digit. *)
Definition is_hex_digit (c : N) : bool :=
  (48 <=? c) && (c <=? 57) || (97 <=? c) && (c <=? 102).

(** The route that a call of [htmx] with the options [opts] hands to
    [app.route]. *)
Definition route_of (config : HTMXRouterConfig) (opts : HTMXRouteOptions) : Route :=
  route_object (default false (debug config)) (method_of opts) (path_of config opts)
    opts.

(** The entry of the registry for the options [opts]. *)
Definition entry_of (config : HTMXRouterConfig) (opts : HTMXRouteOptions)
  : jsstring * RouteHandler :=
  (path_of config opts, handler opts).

(** Whether a call returns; a call of [htmx] does not when [app.route]
    throws. *)
Definition returns (config : HTMXRouterConfig) (st : Router) (c : Call) : bool :=
  match c with
  | CallHtmx opts =>
      match fst (htmx config opts st) with inr _ => true | inl _ => false end
  | CallStart => true
  end.

(** Whether every call of [calls], made in turn from [st], returns. *)
Fixpoint all_return (config : HTMXRouterConfig) (st : Router) (calls : list Call)
  : bool :=
  match calls with
  | [] => true
  | c :: calls => returns config st c && all_return config (step config st c) calls
  end.

(** Of the calls that brought a new path, each with whether the server
    accepted its route, those that it accepted. *)
Definition accepted (regs : list (HTMXRouteOptions * bool)) : list HTMXRouteOptions :=
  map fst (filter (fun ob => snd ob = true) regs).

(** The state of a router is that of the calls [regs] that brought a new
    path: the registry has their entries, all of different paths, and the
    server its first routes followed by the routes of those it accepted. *)
Definition registered_by (config : HTMXRouterConfig) (routes0 : list Route)
    (regs : list (HTMXRouteOptions * bool)) (st : Router) : Prop :=
  routeRegistry st = map (entry_of config) (map fst regs)
  ∧ NoDup (map (path_of config) (map fst regs))
  ∧ routes (server st) = routes0 ++ map (route_of config) (accepted regs).

(** The paths of the calls of [htmx] among [calls], each once, in the order
    of their first call. *)
Definition first_paths (config : HTMXRouterConfig) (calls : list Call)
  : list jsstring :=
  fold_left
    (fun paths c =>
       match c with
       | CallHtmx opts =>
           if bool_decide (path_of config opts ∈ paths)
           then paths else paths ++ [path_of config opts]
       | CallStart => paths
       end)
    calls [].



(** What a match has taken: the input is the matched text followed by the
    rest; the rest is empty under [$]; and every character that the pattern
    asks for once is in the matched text. *)
Definition matched (p : list Regex.item) (e : bool) (s r : jsstring) : Prop :=
  ∃ m, s = m ++ r
       ∧ (e = true → r = [])
       ∧ ∀ c, (Regex.Char c, Regex.Once) ∈ p → c ∈ m.


(** Two routers that differ at most in the console and in the handlers of
    their routes. *)
Definition same_registrations (st st' : Router) : Prop :=
  routeRegistry st' = routeRegistry st
  ∧ map route_shape (routes (server st')) = map route_shape (routes (server st))
  ∧ server_options (server st') = server_options (server st)
  ∧ plugins (server st') = plugins (server st)
  ∧ listening (server st') = listening (server st)
  ∧ exit_code st' = exit_code st.

End Observations.

(** * A platform to run the adapter on

    Values and thrown values are strings; an element is the markup it
    renders to, or [None] for an element whose rendering throws; the request
    is its body; [JSON.stringify] writes the properties without escapes;
    ports below 1024 cannot be bound; route options are a method and a URL,
    each optional; a route is refused once the server listens, and when the
    server has a route of its method and URL. *)

Module Demo.

Definition stringify (o : gmap jsstring jsstring) : jsstring :=
  js "{"
    ++ List.concat
         (map (fun kv => js_q "'" ++ fst kv ++ js_q "':'" ++ snd kv ++ js_q "'")
            (map_to_list o))
    ++ js "}".

Definition refused (l : option (N * jsstring))
    (shapes : list (jsstring * jsstring * option (option jsstring * option jsstring)))
    (shape : jsstring * jsstring * option (option jsstring * option jsstring))
  : option jsstring :=
  match l with
  | Some _ => Some (js "FST_ERR_INSTANCE_ALREADY_LISTENING")
  | None =>
      if bool_decide (fst shape ∈ map fst shapes)
      then Some (js "FST_ERR_DUPLICATED_ROUTE") else None
  end.

Lemma refused_listening l shapes shape : is_Some l → is_Some (refused l shapes shape).
Proof. intros [x ->]. simpl. eauto. Qed.

#[local] Instance platform : Platform := {|
  Value := jsstring;
  ReactElement := option jsstring;
  Exn := jsstring;
  FastifyServerOptions := unit;
  FastifyHttpOptions := option jsstring * option jsstring;
  FastifyRequest := option (gmap jsstring jsstring);
  req_body := fun body => body;
  JSON_stringify_object := stringify;
  renderToStaticMarkup := fun jsx =>
    match jsx with
    | Some html => inr html
    | None => inl (js "Objects are not valid as a React child")
    end;
  listen_error := fun port _ =>
    if port <? 1024 then Some (js "EACCES") else None;
  options_method := fst;
  options_url := snd;
  route_error := refused;
  route_error_listening := refused_listening
|}.

Definition config : HTMXRouterConfig :=
  mkConfig (Some (js "/api")) None None (Some true) None None (Some 3004)
    (Some (js "localhost")) None.

(** Two route handlers written the same way. *)
Definition RouteTest : RouteHandler :=
  mkFn (js "function RouteTest({ data }) { return <h1>Hello {data.name}</h1>; }")
    (fun args => ret (Some (js "<h1>Hello </h1>"))).

Definition RouteTest_twin : RouteHandler :=
  mkFn (js "function RouteTest({ data }) { return <h1>Hello {data.name}</h1>; }")
    (fun args => ret (Some (js "<h1>Bye</h1>"))).

(** A handler that throws. *)
Definition RouteFails : RouteHandler :=
  mkFn (js "function RouteFails() { throw new Error(); }")
    (fun args => throw (js "Error" : Exn)).

Definition form : HTMXRouteOptions :=
  mkOpts RouteTest (Some POST) (Some (js "this")) (Some outerHTML) None None
    [(onBeforeRequest, Some (mkFn (js "(event) => {
        alert(1);
        console.log(event);
    }") tt))].

Definition form_get : HTMXRouteOptions :=
  mkOpts RouteTest_twin (Some GET) None None
    (Some {[js "message" := js "Hello"]}) None [].

Definition failing : HTMXRouteOptions :=
  mkOpts RouteFails None None None None None [].

Definition fresh : Router := createHTMXRouter config [].

(** A request whose body supplies [message] and [name], and one without a
    body. *)
Definition request : FastifyRequest :=
  Some {[js "message" := js "Hi"; js "name" := js "Ada"]}.

Definition no_body : FastifyRequest := None.

Definition world : World := mkWorld [] [].

Definition error : Exn := js "Error".

(** An [onClick] handler written as a function expression whose body calls
    back with an arrow function. *)
Definition hide_items : HTMXRouteOptions :=
  mkOpts RouteTest None None None None None
    [(onClick,
      Some (mkFn (js "function (event) { items.forEach(i => { i.hide(); }); }") tt))].



Definition debug_config : HTMXRouterConfig :=
  mkConfig None None None None None None (Some 3004) None (Some true).

(** A handler that greets with the [message] of its data record, and a
    [POST] route for it whose default message is [Hello]. *)
Definition Greet : RouteHandler :=
  mkFn (js "function Greet({ data }) { return <h1>{data.message}</h1>; }")
    (fun args =>
       ret (Some (js "<h1>" ++ default (js "") (data args !! js "message") ++ js "</h1>"))).

Definition greet : HTMXRouteOptions :=
  mkOpts Greet (Some POST) None None (Some {[js "message" := js "Hello"]}) None [].

(** Route options that carry a method and a URL of their own. *)
Definition own_route : HTMXRouteOptions :=
  mkOpts Greet (Some POST) None None None (Some (Some (js "PUT"), Some (js "/evil"))) [].

(** The router after a successful [router.start], and what [app.route]
    throws on it. *)
Definition started : Router := start config fresh.


End Demo.

(** * Checks of the embedding on known values *)

(** The test vectors of FIPS 180 for SHA-1. *)
Example sha1_empty :
  Sha1.sha1_hex (js "") = js "da39a3ee5e6b4b0d3255bfef95601890afd80709".
Proof. vm_compute. reflexivity. Qed.

Example sha1_abc :
  Sha1.sha1_hex (js "abc") = js "a9993e364706816aba3e25717850c26c9cd0d89d".
Proof. vm_compute. reflexivity. Qed.

Example sha1_two_blocks :
  Sha1.sha1_hex (js "abcdbcdecdefdefgefghfghighijhijkijkljklmklmnlmnomnopnopq")
  = js "84983e441c3bd26ebaae4aa1f95129e5e54670f1".
Proof. vm_compute. reflexivity. Qed.

(** The UTF-8 encoding of a two-byte character and of a surrogate pair. *)
Example utf8_e_acute : utf8_encode [233] = [195; 169].
Proof. reflexivity. Qed.

Example utf8_surrogate_pair : utf8_encode [55357; 56832] = [240; 159; 152; 128].
Proof. reflexivity. Qed.

Example utf8_lone_surrogate : utf8_encode [56832; 97] = [239; 191; 189; 97].
Proof. reflexivity. Qed.

Example handlerString_arrow :
  handlerString (js "(event) => {
        alert(1);
        console.log(event);
    }")
  = js "alert(1);
        console.log(event);".
Proof. vm_compute. reflexivity. Qed.

Example handlerString_function :
  handlerString (js "function (event) { this.reset(); }") = js "this.reset();".
Proof. vm_compute. reflexivity. Qed.

Example convert_mouse_enter :
  convertToHXAttribute (key_name onMouseEnter) = js "hx-on:mouseenter".
Proof. vm_compute. reflexivity. Qed.

(** * Properties *)

Section Properties.

Context `{P : Platform}.

Abbreviation Obj := (gmap jsstring Value).
Abbreviation Attrs := (gmap jsstring JsVal).

(** ** Attribute names *)

Lemma startsWith_app (p r : jsstring) : startsWith p (p ++ r) = true.
Proof.
  induction p as [|c p IH]; simpl; [reflexivity|].
  rewrite N.eqb_refl. exact IH.
Qed.

Lemma convertToHXAttribute_hx_on (key : jsstring) :
  startsWith (js "hx-on:") (convertToHXAttribute key) = true.
Proof.
  unfold convertToHXAttribute.
  repeat case_bool_decide; first [reflexivity | apply startsWith_app].
Qed.

Lemma hxAttr_trigger_name (opts : HTMXRouteOptions) :
  js "hx-" ++ toLowerCase (method_of opts)
  = trigger_name (default POST (method opts)).
Proof. unfold method_of. destruct (method opts) as [[]|]; reflexivity. Qed.

Lemma part000_hxAttr_trigger_name (opts : HTMXRouteOptions) :
  Part000.hxAttr_of (method_of opts) = trigger_name (default POST (method opts)).
Proof. unfold method_of. destruct (method opts) as [[]|]; reflexivity. Qed.

Lemma trigger_name_not_hx_on (m : Method) :
  startsWith (js "hx-on:") (trigger_name m) = false.
Proof. destruct m; reflexivity. Qed.

Lemma trigger_name_fresh (m : Method) :
  trigger_name m ≠ js "hx-target" ∧ trigger_name m ≠ js "hx-swap"
  ∧ trigger_name m ≠ js "hx-vals".
Proof. destruct m; repeat split; discriminate. Qed.

(** ** The entries of [hxOnHandlers] *)

Lemma fold_insert_lookup_other (entries : list (jsstring * jsstring))
    (o : Attrs) (name : jsstring) :
  (∀ e, e ∈ entries → fst e ≠ name) →
  fold_left (fun o e => <[fst e := JString (snd e)]> o) entries o !! name = o !! name.
Proof.
  revert o. induction entries as [|e entries IH]; intros o Hne; simpl; [reflexivity|].
  rewrite IH.
  - apply lookup_insert_ne. apply Hne. left.
  - intros e' He'. apply Hne. right. exact He'.
Qed.

Lemma hx_on_entry_name (opts : HTMXRouteOptions) (key : jsstring)
    (e : jsstring * jsstring) :
  hx_on_entry opts key = Some e → fst e = convertToHXAttribute key.
Proof.
  unfold hx_on_entry. destruct (get_on opts key); intros H; simplify_eq. reflexivity.
Qed.

(** Every name in [hxOnHandlers] begins with [hx-on:]. *)
Lemma hxOnHandlers_other (opts : HTMXRouteOptions) (name : jsstring) :
  startsWith (js "hx-on:") name = false → hxOnHandlers opts !! name = None.
Proof.
  intros Hname. unfold hxOnHandlers, Object_fromEntries.
  rewrite fold_insert_lookup_other; [apply lookup_empty|].
  intros e He Heq.
  apply list_elem_of_omap in He as (key & _ & Hentry).
  apply hx_on_entry_name in Hentry.
  rewrite <- Heq, Hentry, convertToHXAttribute_hx_on in Hname. discriminate.
Qed.

(** The four attributes that are not event handlers. *)
Lemma attributes_base (on_ : Attrs) (hxAttr path : jsstring) (t s : jsstring)
    (v : JsVal) :
  (∀ name, startsWith (js "hx-on:") name = false → on_ !! name = None) →
  startsWith (js "hx-on:") hxAttr = false →
  hxAttr ≠ js "hx-target" → hxAttr ≠ js "hx-swap" → hxAttr ≠ js "hx-vals" →
  let attrs :=
    spread (<[js "hx-vals" := v]>
              (<[js "hx-swap" := JString s]>
                 (<[js "hx-target" := JString t]> (<[hxAttr := JString path]> ∅))))
      on_ in
  attrs !! hxAttr = Some (JString path)
  ∧ attrs !! js "hx-target" = Some (JString t)
  ∧ attrs !! js "hx-swap" = Some (JString s)
  ∧ attrs !! js "hx-vals" = Some v.
Proof.
  intros Hon Hattr H1 H2 H3 attrs. unfold attrs, spread.
  repeat split.
  - rewrite lookup_union_r by (apply Hon; exact Hattr).
    rewrite !lookup_insert_ne by congruence. apply lookup_insert_eq.
  - rewrite lookup_union_r by (apply Hon; reflexivity).
    rewrite !lookup_insert_ne by discriminate. apply lookup_insert_eq.
  - rewrite lookup_union_r by (apply Hon; reflexivity).
    rewrite !lookup_insert_ne by discriminate. apply lookup_insert_eq.
  - rewrite lookup_union_r by (apply Hon; reflexivity).
    apply lookup_insert_eq.
Qed.

Lemma hxAttributes_base (config : HTMXRouterConfig) (opts : HTMXRouteOptions) :
  let attrs := hxAttributes config opts in
  attrs !! trigger_name (default POST (method opts)) = Some (JString (path_of config opts))
  ∧ attrs !! js "hx-target" = Some (JString (default (js "body") (target opts)))
  ∧ attrs !! js "hx-swap"
    = Some (JString (default (js "innerHTML") (swap_name <$> swap opts)))
  ∧ attrs !! js "hx-vals" = Some (JSON_stringify (vals opts)).
Proof.
  unfold hxAttributes. rewrite hxAttr_trigger_name.
  destruct (trigger_name_fresh (default POST (method opts))) as (H1 & H2 & H3).
  apply attributes_base; auto using hxOnHandlers_other, trigger_name_not_hx_on.
Qed.

Lemma part000_attrbs_base (config : HTMXRouterConfig) (opts : HTMXRouteOptions) :
  let attrs := Part000.attrbs config opts in
  attrs !! trigger_name (default POST (method opts)) = Some (JString (path_of config opts))
  ∧ attrs !! js "hx-target" = Some (JString (default (js "body") (target opts)))
  ∧ attrs !! js "hx-swap"
    = Some (JString (default (js "innerHTML") (swap_name <$> swap opts)))
  ∧ attrs !! js "hx-vals" = Some (JSON_stringify (vals opts)).
Proof.
  unfold Part000.attrbs. rewrite part000_hxAttr_trigger_name.
  destruct (trigger_name_fresh (default POST (method opts))) as (H1 & H2 & H3).
  apply attributes_base; auto using hxOnHandlers_other, trigger_name_not_hx_on.
Qed.

(** What [htmx] returns, when it returns, does not depend on the state of
    the router. *)
Lemma htmx_returns (config : HTMXRouterConfig) (opts : HTMXRouteOptions) (st : Router)
    (attrs : Attrs) :
  fst (htmx config opts st) = inr attrs → attrs = hxAttributes config opts.
Proof.
  unfold htmx. cbv zeta.
  destruct (negb _); [destruct (app_route _ _)|]; simpl; congruence.
Qed.

Lemma part000_htmx_returns (config : HTMXRouterConfig) (opts : HTMXRouteOptions)
    (st : Router) (attrs : Attrs) :
  fst (Part000.htmx config opts st) = inr attrs → attrs = Part000.attrbs config opts.
Proof.
  unfold Part000.htmx. cbv zeta.
  destruct (negb _); [destruct (app_route _ _)|]; simpl; congruence.
Qed.

(** ** The registry *)

Lemma Map_has_set (m : RouteMap) (key key' : jsstring) (v : RouteHandler) :
  Map_has (Map_set m key v) key' = Map_has m key' || bool_decide (key = key').
Proof.
  induction m as [|[k w] m IH]; simpl.
  - apply orb_false_r.
  - fold (Map_has m key'). destruct (decide (k = key)) as [->|Hk].
    + rewrite bool_decide_true by reflexivity. simpl. fold (Map_has m key').
      destruct (bool_decide (key = key')), (Map_has m key'); reflexivity.
    + rewrite bool_decide_false by exact Hk. simpl.
      fold (Map_has (Map_set m key v) key'). rewrite IH. apply orb_assoc.
Qed.

Lemma Map_has_set_same (m : RouteMap) (key : jsstring) (v : RouteHandler) :
  Map_has (Map_set m key v) key = true.
Proof. rewrite Map_has_set, bool_decide_true by reflexivity. apply orb_true_r. Qed.

Lemma start_keeps_routes (config : HTMXRouterConfig) (st : Router) :
  routeRegistry (start config st) = routeRegistry st
  ∧ routes (server (start config st)) = routes (server st).
Proof. unfold start. destruct (listen_error _ _); auto. Qed.

Lemma part000_start_keeps_routes (config : HTMXRouterConfig) (st : Router) :
  routeRegistry (Part000.start config st) = routeRegistry st
  ∧ routes (server (Part000.start config st)) = routes (server st).
Proof. unfold Part000.start. destruct (listen_error _ _); auto. Qed.

(** ** Paths *)

Lemma path_of_source (config : HTMXRouterConfig) (opts1 opts2 : HTMXRouteOptions) :
  toString (handler opts1) = toString (handler opts2) →
  path_of config opts1 = path_of config opts2.
Proof. intros H. unfold path_of, hashFn. rewrite H. reflexivity. Qed.

Lemma length_be_bytes (count : nat) (x : N) : length (Sha1.be_bytes count x) = count.
Proof. unfold Sha1.be_bytes. rewrite length_map, length_rev. apply length_seq. Qed.

Lemma length_flat_map_const {A B} (f : A → list B) (n : nat) (l : list A) :
  (∀ x, length (f x) = n) → length (flat_map f l) = (n * length l)%nat.
Proof.
  intros Hf. induction l as [|x l IH]; simpl; [lia|].
  rewrite length_app, Hf, IH. lia.
Qed.

Lemma length_sha1_hex (s : jsstring) : length (Sha1.sha1_hex s) = 40%nat.
Proof.
  unfold Sha1.sha1_hex, Sha1.hex, Sha1.digest.
  rewrite (length_flat_map_const _ 2) by reflexivity.
  rewrite (length_flat_map_const _ 4) by (intros; apply length_be_bytes).
  reflexivity.
Qed.

Lemma length_hashFn {B} (fn : Fn B) : length (hashFn fn) = 10%nat.
Proof. unfold hashFn, slice_to. rewrite length_take, length_sha1_hex. reflexivity. Qed.

Lemma toUpperCase_method_name (m : Method) : toUpperCase (method_name m) = method_name m.
Proof. destruct m; reflexivity. Qed.

Lemma method_of_name (opts : HTMXRouteOptions) :
  method_of opts = method_name (default POST (method opts)).
Proof.
  unfold method_of. destruct (method opts) as [m|]; simpl; [|reflexivity].
  apply toUpperCase_method_name.
Qed.

Lemma Map_has_elem (m : RouteMap) (key : jsstring) :
  Map_has m key = bool_decide (key ∈ map fst m).
Proof.
  induction m as [|[k v] m IH]; simpl.
  - reflexivity.
  - fold (Map_has m key). rewrite IH.
    destruct (decide (k = key)) as [->|Hne].
    + rewrite bool_decide_true by reflexivity. simpl.
      symmetry. apply bool_decide_true. left.
    + rewrite (bool_decide_false (k = key)) by exact Hne. simpl.
      apply bool_decide_ext. rewrite elem_of_cons. intuition congruence.
Qed.

Lemma Map_set_fresh (m : RouteMap) (key : jsstring) (v : RouteHandler) :
  Map_has m key = false → Map_set m key v = m ++ [(key, v)].
Proof.
  induction m as [|[k w] m IH]; simpl; [reflexivity|].
  fold (Map_has m key). intros H. apply orb_false_iff in H as [Hk Hm].
  rewrite Hk, IH by exact Hm. reflexivity.
Qed.


(** ** One call of [htmx] *)

Lemma app_route_accepted (r : Route) (a a' : FastifyInstance) :
  app_route r a = inr a' →
  a' = mkApp (server_options a) (plugins a) (routes a ++ [r]) (listening a).
Proof. unfold app_route. destruct (route_error _ _ _); congruence. Qed.


(** A path of the registry: the call returns the record and changes nothing. *)
Lemma htmx_registered (config : HTMXRouterConfig) (opts : HTMXRouteOptions) (st : Router) :
  Map_has (routeRegistry st) (path_of config opts) = true →
  htmx config opts st = (inr (hxAttributes config opts), st).
Proof. intros H. unfold htmx. cbv zeta. rewrite H. reflexivity. Qed.

(** A new path whose route the server accepts. *)
Lemma htmx_accepted (config : HTMXRouterConfig) (opts : HTMXRouteOptions) (st : Router)
    (a : FastifyInstance) :
  Map_has (routeRegistry st) (path_of config opts) = false →
  app_route (route_of config opts) (server st) = inr a →
  fst (htmx config opts st) = inr (hxAttributes config opts)
  ∧ routeRegistry (snd (htmx config opts st))
    = routeRegistry st ++ [entry_of config opts]
  ∧ server (snd (htmx config opts st))
    = mkApp (server_options (server st)) (plugins (server st))
        (routes (server st) ++ [route_of config opts]) (listening (server st))
  ∧ exit_code (snd (htmx config opts st)) = exit_code st.
Proof.
  intros Hnew Ha. pose proof (app_route_accepted _ _ _ Ha) as ->.
  unfold htmx. cbv zeta. rewrite Hnew. simpl negb. cbv iota.
  fold (route_of config opts). rewrite Ha. simpl.
  rewrite Map_set_fresh by exact Hnew. auto.
Qed.

(** A new path whose route the server refuses: the call throws, the path is
    in the registry, and the server is as it was. *)
Lemma htmx_refused (config : HTMXRouterConfig) (opts : HTMXRouteOptions) (st : Router)
    (e : Exn) :
  Map_has (routeRegistry st) (path_of config opts) = false →
  app_route (route_of config opts) (server st) = inl e →
  fst (htmx config opts st) = inl e
  ∧ routeRegistry (snd (htmx config opts st))
    = routeRegistry st ++ [entry_of config opts]
  ∧ server (snd (htmx config opts st)) = server st
  ∧ exit_code (snd (htmx config opts st)) = exit_code st.
Proof.
  intros Hnew Ha. unfold htmx. cbv zeta. rewrite Hnew. simpl negb. cbv iota.
  fold (route_of config opts). rewrite Ha. simpl.
  rewrite Map_set_fresh by exact Hnew. auto.
Qed.

Lemma htmx_returned_new (config : HTMXRouterConfig) (opts : HTMXRouteOptions)
    (st : Router) (attrs : Attrs) :
  Map_has (routeRegistry st) (path_of config opts) = false →
  fst (htmx config opts st) = inr attrs →
  ∃ a, app_route (route_of config opts) (server st) = inr a.
Proof.
  intros Hnew Hret.
  destruct (app_route (route_of config opts) (server st)) as [e|a] eqn:Ha; [|eauto].
  destruct (htmx_refused config opts st e Hnew Ha) as [Hf _]. congruence.
Qed.

(** ** The state of a router after any calls *)

Lemma entry_paths (config : HTMXRouterConfig) (regs : list HTMXRouteOptions) :
  map fst (map (entry_of config) regs) = map (path_of config) regs.
Proof. rewrite map_map. reflexivity. Qed.

Lemma accepted_app (regs regs' : list (HTMXRouteOptions * bool)) :
  accepted (regs ++ regs') = accepted regs ++ accepted regs'.
Proof. unfold accepted. rewrite filter_app, map_app. reflexivity. Qed.


Lemma returns_accepted (config : HTMXRouterConfig) (opts : HTMXRouteOptions)
    (st : Router) (a : FastifyInstance) :
  Map_has (routeRegistry st) (path_of config opts) = false →
  app_route (route_of config opts) (server st) = inr a →
  returns config st (CallHtmx opts) = true.
Proof.
  intros Hnew Ha. destruct (htmx_accepted config opts st a Hnew Ha) as [Hf _].
  simpl. rewrite Hf. reflexivity.
Qed.

Lemma returns_refused (config : HTMXRouterConfig) (opts : HTMXRouteOptions)
    (st : Router) (e : Exn) :
  Map_has (routeRegistry st) (path_of config opts) = false →
  app_route (route_of config opts) (server st) = inl e →
  returns config st (CallHtmx opts) = false.
Proof.
  intros Hnew Ha. destruct (htmx_refused config opts st e Hnew Ha) as [Hf _].
  simpl. rewrite Hf. reflexivity.
Qed.

(** One call of [htmx]: a path already in the registry changes nothing; a
    new path enters the registry, and its route enters the server exactly
    when the call returns. *)
Lemma htmx_registered_by (config : HTMXRouterConfig) (routes0 : list Route)
    (regs : list (HTMXRouteOptions * bool)) (opts : HTMXRouteOptions) (st : Router) :
  registered_by config routes0 regs st →
  registered_by config routes0
    (regs ++
     if bool_decide (path_of config opts ∈ map (path_of config) (map fst regs))
     then [] else [(opts, returns config st (CallHtmx opts))])
    (snd (htmx config opts st)).
Proof.
  intros (Hreg & Hnodup & Hroutes).
  assert (Hhas : Map_has (routeRegistry st) (path_of config opts)
                 = bool_decide (path_of config opts
                                ∈ map (path_of config) (map fst regs))).
  { rewrite Map_has_elem, Hreg, entry_paths. reflexivity. }
  case_bool_decide as Hin.
  - rewrite htmx_registered by exact Hhas. rewrite app_nil_r.
    repeat split; assumption.
  - assert (Hnodup' : NoDup (map (path_of config) (map fst regs ++ [opts]))).
    { rewrite map_app. apply NoDup_app. split; [exact Hnodup|].
      split; [|apply NoDup_singleton].
      intros p Hp Hp'. apply list_elem_of_singleton in Hp'. subst p. contradiction. }
    destruct (app_route (route_of config opts) (server st)) as [e|a] eqn:Ha.
    + rewrite (returns_refused config opts st e Hhas Ha).
      destruct (htmx_refused config opts st e Hhas Ha) as (_ & Hreg' & Hsrv' & _).
      split; [|split].
      * rewrite Hreg', Hreg, !map_app. reflexivity.
      * rewrite map_app. exact Hnodup'.
      * rewrite Hsrv', Hroutes, accepted_app.
        unfold accepted at 3. rewrite filter_cons_False, filter_nil by (simpl; congruence).
        simpl. rewrite app_nil_r. reflexivity.
    + rewrite (returns_accepted config opts st a Hhas Ha).
      destruct (htmx_accepted config opts st a Hhas Ha) as (_ & Hreg' & Hsrv' & _).
      split; [|split].
      * rewrite Hreg', Hreg, !map_app. reflexivity.
      * rewrite map_app. exact Hnodup'.
      * rewrite Hsrv'. simpl. rewrite Hroutes, accepted_app.
        unfold accepted at 3. rewrite filter_cons_True, filter_nil by reflexivity.
        simpl. rewrite map_app, app_assoc. reflexivity.
Qed.

Lemma start_registered_by (config : HTMXRouterConfig) (routes0 : list Route)
    (regs : list (HTMXRouteOptions * bool)) (st : Router) :
  registered_by config routes0 regs st →
  registered_by config routes0 regs (start config st).
Proof.
  intros (Hreg & Hnodup & Hroutes).
  destruct (start_keeps_routes config st) as [Hreg' Hroutes'].
  repeat split; congruence.
Qed.

(** Any calls: the registrations they add come from calls of [htmx] among
    them, and all of them are accepted when every call returns. *)
Lemma run_registered_by (config : HTMXRouterConfig) (routes0 : list Route)
    (calls : list Call) :
  ∀ (regs : list (HTMXRouteOptions * bool)) (st : Router),
    registered_by config routes0 regs st →
    ∃ regs',
      registered_by config routes0 (regs ++ regs') (fold_left (step config) calls st)
      ∧ (∀ o b, (o, b) ∈ regs' → CallHtmx o ∈ calls)
      ∧ (all_return config st calls = true → Forall (fun ob => snd ob = true) regs').
Proof.
  induction calls as [|[opts|] calls IH]; intros regs st Hst.
  - exists []. rewrite app_nil_r. split; [exact Hst|]. split.
    + intros o b Hin. apply not_elem_of_nil in Hin. contradiction.
    + intros _. constructor.
  - pose proof (htmx_registered_by config routes0 regs opts st Hst) as Hst1.
    destruct (IH _ _ Hst1) as (regs' & Hinv & Hcalled & Hflags).
    eexists. split; [|split].
    + change (fold_left (step config) (CallHtmx opts :: calls) st)
        with (fold_left (step config) calls (snd (htmx config opts st))).
      rewrite <- app_assoc in Hinv. exact Hinv.
    + intros o b Hin. apply elem_of_app in Hin as [Hin|Hin].
      * case_bool_decide; [apply not_elem_of_nil in Hin; contradiction|].
        apply list_elem_of_singleton in Hin. injection Hin as -> _. left.
      * right. eapply Hcalled, Hin.
    + intros Hall.
      change (all_return config st (CallHtmx opts :: calls))
        with (returns config st (CallHtmx opts)
              && all_return config (step config st (CallHtmx opts)) calls) in Hall.
      apply andb_true_iff in Hall as [Hret Hall].
      apply Forall_app. split; [|apply Hflags, Hall].
      case_bool_decide; [constructor|].
      constructor; [exact Hret|constructor].
  - pose proof (start_registered_by config routes0 regs st Hst) as Hst1.
    destruct (IH _ _ Hst1) as (regs' & Hinv & Hcalled & Hflags).
    exists regs'. split; [exact Hinv|]. split.
    + intros o b Hin. right. eapply Hcalled, Hin.
    + intros Hall. apply Hflags, Hall.
Qed.

Lemma created_registered_by (config : HTMXRouterConfig) (c : Console) :
  registered_by config (routes (server (createHTMXRouter config c))) []
    (createHTMXRouter config c).
Proof.
  repeat split.
  - unfold createHTMXRouter.
    destruct (default true (useFormbody config)), (entryPoint config); reflexivity.
  - constructor.
  - simpl. symmetry. apply app_nil_r.
Qed.

Lemma lifetime_registered_by (config : HTMXRouterConfig) (c : Console)
    (calls : list Call) :
  ∃ regs,
    registered_by config (routes (server (createHTMXRouter config c))) regs
      (fold_left (step config) calls (createHTMXRouter config c))
    ∧ (∀ o b, (o, b) ∈ regs → CallHtmx o ∈ calls)
    ∧ (all_return config (createHTMXRouter config c) calls = true →
       Forall (fun ob => snd ob = true) regs).
Proof.
  destruct (run_registered_by config _ calls [] _ (created_registered_by config c))
    as (regs & H). exists regs. exact H.
Qed.



(** ** C1 *)


(** ** C3 *)

(** C3. The record that [htmx] returns has the trigger attribute of the
    method ([hx-post] when no method is given) with the endpoint path as its
    value, [hx-target] with the configured target or [body], and [hx-swap]
    with the configured strategy or [innerHTML]. *)
Theorem attributes_trigger_target_swap (config : HTMXRouterConfig)
    (opts : HTMXRouteOptions) (st : Router) (attrs : Attrs) :
  fst (htmx config opts st) = inr attrs →
  attrs !! trigger_name (default POST (method opts))
    = Some (JString (default (js "/api") (prefix config) ++ js "/" ++ hashFn (handler opts)))
  ∧ attrs !! js "hx-target" = Some (JString (default (js "body") (target opts)))
  ∧ attrs !! js "hx-swap"
    = Some (JString (default (js "innerHTML") (swap_name <$> swap opts))).
Proof.
  intros Hret. apply htmx_returns in Hret. subst attrs.
  destruct (hxAttributes_base config opts) as (H1 & H2 & H3 & _). auto.
Qed.

Lemma part000_attributes_trigger_target_swap (config : HTMXRouterConfig)
    (opts : HTMXRouteOptions) (st : Router) (attrs : Attrs) :
  fst (Part000.htmx config opts st) = inr attrs →
  attrs !! trigger_name (default POST (method opts))
    = Some (JString (default (js "/api") (prefix config) ++ js "/" ++ hashFn (handler opts)))
  ∧ attrs !! js "hx-target" = Some (JString (default (js "body") (target opts)))
  ∧ attrs !! js "hx-swap"
    = Some (JString (default (js "innerHTML") (swap_name <$> swap opts))).
Proof.
  intros Hret. apply part000_htmx_returns in Hret. subst attrs.
  destruct (part000_attrbs_base config opts) as (H1 & H2 & H3 & _). auto.
Qed.

(** ** C8 *)

(** C8. When [opts.vals] is omitted, the returned record still has the key
    [hx-vals], and its value is [undefined], not a string. *)
Theorem hx_vals_undefined (config : HTMXRouterConfig) (opts : HTMXRouteOptions)
    (st : Router) :
  vals opts = None →
  (∀ attrs, fst (htmx config opts st) = inr attrs →
            attrs !! js "hx-vals" = Some JUndefined)
  ∧ (∀ attrs, fst (Part000.htmx config opts st) = inr attrs →
              attrs !! js "hx-vals" = Some JUndefined).
Proof.
  intros Hvals. split; intros attrs Hret.
  - apply htmx_returns in Hret. subst attrs.
    destruct (hxAttributes_base config opts) as (_ & _ & _ & ->).
    rewrite Hvals. reflexivity.
  - apply part000_htmx_returns in Hret. subst attrs.
    destruct (part000_attrbs_base config opts) as (_ & _ & _ & ->).
    rewrite Hvals. reflexivity.
Qed.

(** ** C9 *)



(** A call of [htmx] leaves its path in the registry, whether it returns or
    throws. *)
Lemma htmx_leaves_registered (config : HTMXRouterConfig) (opts : HTMXRouteOptions)
    (st : Router) :
  Map_has (routeRegistry (snd (htmx config opts st))) (path_of config opts) = true.
Proof.
  destruct (Map_has (routeRegistry st) (path_of config opts)) eqn:Hhas.
  - rewrite htmx_registered by exact Hhas. exact Hhas.
  - assert (Hreg : routeRegistry (snd (htmx config opts st))
                   = routeRegistry st ++ [entry_of config opts]).
    { destruct (app_route (route_of config opts) (server st)) as [e|a] eqn:Ha.
      - apply (htmx_refused config opts st e Hhas Ha).
      - apply (htmx_accepted config opts st a Hhas Ha). }
    rewrite Hreg, Map_has_elem, map_app. apply bool_decide_true.
    apply elem_of_app. right. left.
Qed.


(** ** C7 *)

(** C7, as amended.  The endpoint that a call of [htmx] registers, when its
    path is not in the registry, the server accepts the route and the route
    options carry no method and no url of their own, has for path the
    configured prefix (or [/api]), a slash and the content hash of the
    handler, and for method the method of the options of that call, [POST]
    when it has none. *)
Theorem endpoint_path_and_method (config : HTMXRouterConfig) (opts : HTMXRouteOptions)
    (st : Router) (attrs : Attrs) :
  Map_has (routeRegistry st) (path_of config opts) = false →
  fst (htmx config opts st) = inr attrs →
  routeOptions opts ≫= options_method = None →
  routeOptions opts ≫= options_url = None →
  ∃ r, routes (server (snd (htmx config opts st))) = routes (server st) ++ [r]
       ∧ route_url r = default (js "/api") (prefix config) ++ js "/" ++ hashFn (handler opts)
       ∧ route_method r = method_name (default POST (method opts)).
Proof.
  intros Hnew Hret Hmethod Hurl.
  destruct (htmx_returned_new config opts st attrs Hnew Hret) as [a Ha].
  destruct (htmx_accepted config opts st a Hnew Ha) as (_ & _ & -> & _).
  exists (route_of config opts). split; [reflexivity|].
  simpl. rewrite Hmethod, Hurl. simpl. split; [reflexivity|]. apply method_of_name.
Qed.

(** ** C6 *)

(** C6. The endpoint path is a function of the source text of the handler:
    handlers of equal source text have equal paths; the path is the prefix,
    a slash and the first ten characters of the hexadecimal SHA-1 digest of
    the source text; and for any behaviour there are two handlers with that
    behaviour, written differently, whose paths differ. *)
Theorem path_is_content_hash (config : HTMXRouterConfig) :
  (∀ opts1 opts2, toString (handler opts1) = toString (handler opts2) →
                  path_of config opts1 = path_of config opts2)
  ∧ (∀ opts, path_of config opts
             = default (js "/api") (prefix config) ++ js "/"
                 ++ slice_to 10 (Sha1.sha1_hex (toString (handler opts)))
             ∧ length (hashFn (handler opts)) = 10%nat)
  ∧ (∀ behaviour : HandlerArgs → Endpoint ReactElement,
       ∃ h1 h2 : RouteHandler,
         call h1 = behaviour ∧ call h2 = behaviour
         ∧ toString h1 ≠ toString h2
         ∧ ∀ opts1 opts2, handler opts1 = h1 → handler opts2 = h2 →
                          path_of config opts1 ≠ path_of config opts2).
Proof.
  split; [apply path_of_source|].
  split; [intros opts; split; [reflexivity|apply length_hashFn]|].
  intros behaviour.
  exists (mkFn (js "({ data }) => <p>{data.name}</p>") behaviour),
         (mkFn (js "({data}) => <p>{data.name}</p>") behaviour).
  split; [reflexivity|]. split; [reflexivity|]. split; [discriminate|].
  intros opts1 opts2 H1 H2 Hpath. unfold path_of in Hpath.
  rewrite H1, H2 in Hpath.
  apply app_inv_head, app_inv_head in Hpath.
  vm_compute in Hpath. discriminate Hpath.
Qed.

(** ** C2 *)

Lemma spread_lookup {V} (left right : gmap jsstring V) (k : jsstring) :
  spread left right !! k
  = match right !! k with Some v => Some v | None => left !! k end.
Proof.
  unfold spread. rewrite lookup_union.
  destruct (right !! k), (left !! k); reflexivity.
Qed.

(** C2. The data record of a request has, for a key that the request body
    supplies, the value of the body, and for any other key the value that
    [opts.vals] gives it, if any; and it is the record the handler is called
    with: what the endpoint does is decided by the one call of
    [opts.handler] on this record and the request, whose element it renders
    and sends, and whose error, or that of the rendering, it answers with
    status 500. *)
Theorem handler_data_prefers_body (opts : HTMXRouteOptions) (req : FastifyRequest) :
  let data := request_data opts req in
  let defaults := default ∅ (vals opts) in
  let supplied := default ∅ (req_body req) in
  let sent (note : Console → Console) (html : jsstring) (w1 : World)
      : (Exn + unit) * World :=
    (inr tt,
     mkWorld (note (w_console w1))
       (w_res w1 ++ [Header (js "Content-Type") (js "text/html"); Send html])) in
  let failed (note : Console → Console) (w1 : World) : (Exn + unit) * World :=
    (inr tt,
     mkWorld (note (w_console w1)) (w_res w1 ++ [Status 500; Send (js "Server error")])) in
  (∀ k v, supplied !! k = Some v → data !! k = Some v)
  ∧ (∀ k, supplied !! k = None → data !! k = defaults !! k)
  ∧ (∀ debug method path w,
       endpoint debug method path opts req w
       = match call (handler opts) (mkArgs data req) (at_try debug method path req w) with
         | (inr jsx, w1) =>
             match renderToStaticMarkup jsx with
             | inr html =>
                 sent (log debug [LString (js "Generated HTML response length:");
                                  LNumber (N.of_nat (length html))]) html w1
             | inl e => failed (logError [LString (js "Handler error:"); LError e]) w1
             end
         | (inl e, w1) => failed (logError [LString (js "Handler error:"); LError e]) w1
         end)
  ∧ (∀ w,
       Part000.endpoint opts req w
       = match call (handler opts) (mkArgs data req) w with
         | (inr jsx, w1) =>
             match renderToStaticMarkup jsx with
             | inr html => sent (fun c => c) html w1
             | inl e =>
                 failed (console_error [LString (js "HTMX handler error:"); LError e]) w1
             end
         | (inl e, w1) =>
             failed (console_error [LString (js "HTMX handler error:"); LError e]) w1
         end).
Proof.
  intros data defaults supplied sent failed. unfold data, request_data.
  split; [|split; [|split]].
  - intros k v Hk. rewrite spread_lookup. fold supplied. rewrite Hk. reflexivity.
  - intros k Hk. rewrite spread_lookup. fold supplied. rewrite Hk. reflexivity.
  - intros debug method path w.
    change (endpoint debug method path opts req w)
      with (try_catch (respond debug opts req) server_error
              (at_try debug method path req w)).
    unfold try_catch, respond, bind, request_data.
    destruct (call (handler opts) _ _) as [[e|jsx] w1]; [reflexivity|].
    destruct (renderToStaticMarkup jsx) as [e|html]; reflexivity.
  - intros w. unfold Part000.endpoint, try_catch, Part000.respond, bind, request_data.
    destruct (call (handler opts) _ _) as [[e|jsx] w1]; [reflexivity|].
    destruct (renderToStaticMarkup jsx) as [e|html]; reflexivity.
Qed.

(** ** C4 *)

Lemma try_catch_caught {A} (body : Endpoint A) (handler : Exn → Endpoint A)
    (w w' : World) (e : Exn) :
  body w = (inl e, w') → try_catch body handler w = handler e w'.
Proof. unfold try_catch. intros ->. reflexivity. Qed.

Lemma server_error_completes (e : Exn) (w : World) :
  server_error e w
  = (inr tt,
     mkWorld (logError [LString (js "Handler error:"); LError e] (w_console w))
       (w_res w ++ [Status 500; Send (js "Server error")])).
Proof. reflexivity. Qed.

Lemma endpoint_at_try (debug : bool) (method path : jsstring) (opts : HTMXRouteOptions)
    (req : FastifyRequest) (w : World) :
  endpoint debug method path opts req w
  = try_catch (respond debug opts req) server_error (at_try debug method path req w).
Proof. reflexivity. Qed.

(** C4. The endpoint never throws.  If the [try] block throws [e], be it
    the handler that throws (or rejects) or [renderToStaticMarkup], the
    endpoint writes the error to the error stream of the console, calls
    [res.status(500).send("Server error")], and completes. *)
Theorem handler_errors_become_500 (debug : bool) (method path : jsstring)
    (opts : HTMXRouteOptions) (req : FastifyRequest) (w : World) :
  let w0 := at_try debug method path req w in
  let args := mkArgs (request_data opts req) req in
  let answered (e : Exn) (w1 : World) :=
    endpoint debug method path opts req w
    = (inr tt,
       mkWorld (console_error [LString (js "[HTMX]"); LString (js "Handler error:"); LError e]
                  (w_console w1))
         (w_res w1 ++ [Status 500; Send (js "Server error")])) in
  (∃ w', endpoint debug method path opts req w = (inr tt, w'))
  ∧ (∀ e w1, respond debug opts req w0 = (inl e, w1) → answered e w1)
  ∧ (∀ e w1, call (handler opts) args w0 = (inl e, w1) → answered e w1)
  ∧ (∀ jsx e w1, call (handler opts) args w0 = (inr jsx, w1) →
                 renderToStaticMarkup jsx = inl e → answered e w1).
Proof.
  intros w0 args answered.
  assert (Hcaught : ∀ e w1, respond debug opts req w0 = (inl e, w1) → answered e w1).
  { intros e w1 H. unfold answered. rewrite endpoint_at_try.
    fold w0. rewrite (try_catch_caught _ _ _ _ _ H). reflexivity. }
  split; [|split; [exact Hcaught|split]].
  - rewrite endpoint_at_try. fold w0. unfold try_catch.
    destruct (respond debug opts req w0) as [[e|[]] w1]; eauto.
  - intros e w1 Hcall. apply Hcaught.
    unfold respond, bind. fold args. rewrite Hcall. reflexivity.
  - intros jsx e w1 Hcall Hrender. apply Hcaught.
    unfold respond, bind. fold args. rewrite Hcall, Hrender. reflexivity.
Qed.

Lemma part000_handler_errors_become_500 (opts : HTMXRouteOptions)
    (req : FastifyRequest) (w : World) :
  let args := mkArgs (request_data opts req) req in
  let answered (e : Exn) (w1 : World) :=
    Part000.endpoint opts req w
    = (inr tt,
       mkWorld (console_error [LString (js "HTMX handler error:"); LError e] (w_console w1))
         (w_res w1 ++ [Status 500; Send (js "Server error")])) in
  (∃ w', Part000.endpoint opts req w = (inr tt, w'))
  ∧ (∀ e w1, Part000.respond opts req w = (inl e, w1) → answered e w1)
  ∧ (∀ e w1, call (handler opts) args w = (inl e, w1) → answered e w1)
  ∧ (∀ jsx e w1, call (handler opts) args w = (inr jsx, w1) →
                 renderToStaticMarkup jsx = inl e → answered e w1).
Proof.
  intros args answered.
  assert (Hcaught : ∀ e w1, Part000.respond opts req w = (inl e, w1) → answered e w1).
  { intros e w1 H. unfold answered, Part000.endpoint.
    rewrite (try_catch_caught _ _ _ _ _ H). reflexivity. }
  split; [|split; [exact Hcaught|split]].
  - unfold Part000.endpoint, try_catch.
    destruct (Part000.respond opts req w) as [[e|[]] w1]; eauto.
  - intros e w1 Hcall. apply Hcaught.
    unfold Part000.respond, bind. fold args. rewrite Hcall. reflexivity.
  - intros jsx e w1 Hcall Hrender. apply Hcaught.
    unfold Part000.respond, bind. fold args. rewrite Hcall, Hrender. reflexivity.
Qed.

(** ** C5 *)


Lemma part000_start_listens_or_exits (config : HTMXRouterConfig) (st : Router) :
  let port := default 3000 (port config) in
  let host := default (js "localhost") (host config) in
  let st' := Part000.start config st in
  match listen_error port host with
  | Some err =>
      exit_code st' = Some 1
      ∧ console st'
        = console st ++ [(Stderr, [LString (js "Error starting server:"); LError err])]
      ∧ server st' = server st
  | None =>
      listening (server st') = Some (port, host)
      ∧ exit_code st' = exit_code st
      ∧ console st'
        = console st ++ [(Stdout, [LString (js "Server listening on http://" ++ host
                                              ++ js ":" ++ of_N port)])]
  end.
Proof.
  intros port host st'. unfold st', Part000.start. fold port host.
  destruct (listen_error port host) as [err|]; simpl; repeat split.
Qed.

(** ** Event handlers (C10) *)

Lemma key_name_on (k : OnKey) : startsWith (js "on") (key_name k) = true.
Proof. destruct k; reflexivity. Qed.

Lemma on_key_of_key_name (k : OnKey) : on_key_of_name (key_name k) = Some k.
Proof. destruct k; reflexivity. Qed.

(** The attribute name of each key of [OnHandlers]. *)
Lemma convertToHXAttribute_key (k : OnKey) :
  convertToHXAttribute (key_name k)
  = match k with
    | onBeforeRequest => js "hx-on::before-request"
    | onAfterRequest => js "hx-on::after-request"
    | _ => js "hx-on:" ++ slice_from 2 (toLowerCase (key_name k))
    end.
Proof. destruct k; reflexivity. Qed.

Lemma convertToHXAttribute_inj (k1 k2 : OnKey) :
  convertToHXAttribute (key_name k1) = convertToHXAttribute (key_name k2) → k1 = k2.
Proof.
  destruct k1, k2; intros H; first [reflexivity | vm_compute in H; discriminate H].
Qed.

(** The keys that the filter on [Object.keys(opts)] keeps. *)
Lemma onHandlers_keys (opts : HTMXRouteOptions) :
  filter (fun key => startsWith (js "on") key = true) (Object_keys opts)
  = map (fun e => key_name (fst e)) (on opts).
Proof.
  unfold Object_keys.
  assert (Hon : ∀ l : list (OnKey * option EventHandler),
    filter (fun key => startsWith (js "on") key = true) (map (fun e => key_name (fst e)) l)
    = map (fun e => key_name (fst e)) l).
  { induction l as [|e l IH]; [reflexivity|].
    simpl map. rewrite filter_cons_True by apply key_name_on. now rewrite IH. }
  rewrite !filter_app, Hon.
  destruct (method opts), (target opts), (swap opts), (vals opts), (routeOptions opts);
    reflexivity.
Qed.

Lemma on_value_absent (l : list (OnKey * option EventHandler)) (k : OnKey)
    (acc : option EventHandler) :
  k ∉ map fst l →
  fold_left (fun acc e => if bool_decide (fst e = k) then snd e else acc) l acc = acc.
Proof.
  revert acc. induction l as [|e l IH]; intros acc Hk; simpl; [reflexivity|].
  simpl in Hk. apply not_elem_of_cons in Hk as [Hne Hk].
  rewrite IH by exact Hk. rewrite bool_decide_false by congruence. reflexivity.
Qed.

Lemma on_value_present (l : list (OnKey * option EventHandler)) (k : OnKey)
    (h : EventHandler) :
  on_value l k = Some h → k ∈ map fst l.
Proof.
  intros H. destruct (decide (k ∈ map fst l)) as [Hin|Hout]; [exact Hin|].
  unfold on_value in H. rewrite on_value_absent in H by exact Hout. discriminate H.
Qed.

Lemma hx_on_entry_key (opts : HTMXRouteOptions) (k : OnKey) :
  hx_on_entry opts (key_name k)
  = (fun h => (convertToHXAttribute (key_name k), handlerString (toString h)))
      <$> on_value (on opts) k.
Proof.
  unfold hx_on_entry, get_on. rewrite on_key_of_key_name.
  destruct (on_value (on opts) k); reflexivity.
Qed.

Lemma fromEntries_on_keys (opts : HTMXRouteOptions) (keys : list OnKey) (k : OnKey) :
  Object_fromEntries (omap (fun k' => hx_on_entry opts (key_name k')) keys)
    !! convertToHXAttribute (key_name k)
  = if decide (k ∈ keys)
    then (fun h => JString (handlerString (toString h))) <$> on_value (on opts) k
    else None.
Proof.
  unfold Object_fromEntries.
  induction keys as [|k' keys IH] using rev_ind.
  - simpl. rewrite lookup_empty. reflexivity.
  - rewrite omap_app, fold_left_app. simpl omap.
    rewrite hx_on_entry_key.
    destruct (decide (k' = k)) as [->|Hne].
    + rewrite decide_True by (apply elem_of_app; right; apply list_elem_of_here).
      destruct (on_value (on opts) k) as [h|] eqn:Hv; simpl.
      * apply lookup_insert_eq.
      * rewrite IH. destruct (decide (k ∈ keys)); reflexivity.
    + assert (Hiff : k ∈ keys ++ [k'] ↔ k ∈ keys).
      { rewrite elem_of_app, list_elem_of_singleton. intuition congruence. }
      assert (Hrest :
        fold_left (fun (o : Attrs) e => <[fst e := JString (snd e)]> o)
          (omap (fun k' => hx_on_entry opts (key_name k')) keys) (∅ : Attrs)
          !! convertToHXAttribute (key_name k)
        = if decide (k ∈ keys ++ [k'])
          then (fun h => JString (handlerString (toString h))) <$> on_value (on opts) k
          else None).
      { rewrite IH. destruct (decide (k ∈ keys)), (decide (k ∈ keys ++ [k']));
          first [reflexivity | exfalso; tauto]. }
      destruct (on_value (on opts) k') as [h'|]; simpl; [|exact Hrest].
      rewrite lookup_insert_ne; [exact Hrest|].
      intros Heq. apply convertToHXAttribute_inj in Heq. contradiction.
Qed.

Lemma hxOnHandlers_on_keys (opts : HTMXRouteOptions) :
  hxOnHandlers opts
  = Object_fromEntries
      (omap (fun k' => hx_on_entry opts (key_name k')) (map fst (on opts))).
Proof.
  unfold hxOnHandlers. rewrite onHandlers_keys. f_equal.
  induction (on opts) as [|e l IH]; [reflexivity|].
  cbn. destruct (hx_on_entry opts (key_name (fst e))); [f_equal|]; exact IH.
Qed.

(** The attribute of an event handler: for a key of [OnHandlers] whose value
    in [opts] is the function [h], the returned record has, under the name
    that [convertToHXAttribute] gives the key, the text that [handlerString]
    makes of the source of [h]. *)
Lemma on_handler_attribute (config : HTMXRouterConfig) (opts : HTMXRouteOptions)
    (k : OnKey) (h : EventHandler) :
  on_value (on opts) k = Some h →
  hxAttributes config opts !! convertToHXAttribute (key_name k)
  = Some (JString (handlerString (toString h))).
Proof.
  intros Hv. unfold hxAttributes, spread.
  apply lookup_union_Some_l.
  rewrite hxOnHandlers_on_keys, fromEntries_on_keys, Hv.
  rewrite decide_True by (eapply on_value_present; exact Hv). reflexivity.
Qed.

(** A key that is absent, or present with the value [undefined], gives no
    attribute. *)
Lemma on_handler_absent (config : HTMXRouterConfig) (opts : HTMXRouteOptions)
    (k : OnKey) :
  on_value (on opts) k = None →
  hxAttributes config opts !! convertToHXAttribute (key_name k) = None.
Proof.
  intros Hv. unfold hxAttributes, spread.
  apply lookup_union_None_2.
  - rewrite hxOnHandlers_on_keys, fromEntries_on_keys, Hv.
    destruct (decide _); reflexivity.
  - pose proof (convertToHXAttribute_hx_on (key_name k)) as Hon.
    rewrite hxAttr_trigger_name.
    rewrite !lookup_insert_ne; [apply lookup_empty| | | |];
      intros Heq; rewrite <- Heq in Hon;
      first [discriminate Hon | rewrite trigger_name_not_hx_on in Hon; discriminate Hon].
Qed.

(** *** The source of an arrow function with parenthesised parameters *)

Lemma match_star_cons (k : Regex.cls) (p : list Regex.item) (e : bool) (c : N)
    (s : jsstring) :
  Regex.match_items ((k, Regex.Star) :: p) e (c :: s)
  = if Regex.accepts k c then
      match Regex.match_items ((k, Regex.Star) :: p) e s with
      | Some r => Some r
      | None => Regex.match_items p e (c :: s)
      end
    else Regex.match_items p e (c :: s).
Proof. reflexivity. Qed.

(** A greedy class that leads to a match after it has taken [pre] takes all
    of [pre]. *)
Lemma match_star_takes (k : Regex.cls) (p : list Regex.item) (e : bool)
    (pre s r : jsstring) :
  Forall (fun c => Regex.accepts k c = true) pre →
  Regex.match_items ((k, Regex.Star) :: p) e s = Some r →
  Regex.match_items ((k, Regex.Star) :: p) e (pre ++ s) = Some r.
Proof.
  intros Hpre Hs. induction Hpre as [|c pre Hc _ IH]; [exact Hs|].
  change ((c :: pre) ++ s) with (c :: (pre ++ s)).
  rewrite match_star_cons, Hc, IH. reflexivity.
Qed.

Lemma search_closing_brace (body : jsstring) :
  Regex.search re_closing_brace (body ++ js "}") = Some (body, []).
Proof.
  induction body as [|c body IH]; [reflexivity|].
  simpl app. simpl Regex.search. simpl in IH. rewrite IH.
  destruct (c =? _); [|reflexivity].
  destruct body; reflexivity.
Qed.

(** For an arrow function [(params) => {body}] the attribute is the body,
    trimmed. *)
Lemma handlerString_arrow_body (params body : jsstring) :
  Forall (fun c => c ≠ 41) params →
  handlerString (js "(" ++ params ++ js ") => {" ++ body ++ js "}") = trim body.
Proof.
  intros Hparams. unfold handlerString.
  change (Regex.replace re_function_wrapper []
            (js "(" ++ params ++ js ") => {" ++ body ++ js "}"))
    with (js "(" ++ params ++ js ") => {" ++ body ++ js "}").
  assert (Harrow : Regex.replace re_arrow_wrapper []
                     (js "(" ++ params ++ js ") => {" ++ body ++ js "}")
                   = body ++ js "}").
  { unfold Regex.replace, Regex.exec. simpl Regex.at_start. cbv iota.
    assert (Hm : Regex.match_items (Regex.items re_arrow_wrapper)
                   (Regex.at_end re_arrow_wrapper)
                   (js "(" ++ params ++ js ") => {" ++ body ++ js "}")
                 = Some (body ++ js "}")).
    { change (Regex.match_items (Regex.items re_arrow_wrapper)
                (Regex.at_end re_arrow_wrapper)
                (js "(" ++ params ++ js ") => {" ++ body ++ js "}"))
        with (match Regex.match_items (tail (Regex.items re_arrow_wrapper)) false
                      (params ++ js ") => {" ++ body ++ js "}") with
              | Some r => Some r
              | None => Regex.match_items (tail (Regex.items re_arrow_wrapper)) false
                          (js "(" ++ params ++ js ") => {" ++ body ++ js "}")
              end).
      change (tail (Regex.items re_arrow_wrapper))
        with ((Regex.NotChar 41, Regex.Star)
                :: tail (tail (Regex.items re_arrow_wrapper))).
      rewrite (match_star_takes _ _ _ params _ (body ++ js "}")); [reflexivity| |].
      - eapply Forall_impl; [exact Hparams|].
        intros c Hc. simpl. apply negb_true_iff, N.eqb_neq. exact Hc.
      - reflexivity. }
    rewrite Hm. reflexivity. }
  rewrite Harrow. unfold Regex.replace, Regex.exec. simpl Regex.at_start. cbv iota.
  rewrite search_closing_brace, app_nil_r. reflexivity.
Qed.

(** * Further properties of the adapter *)

(** ** [hashFn] *)

Lemma hex_digit_is_hex (d : N) : d < 16 → is_hex_digit (Sha1.hex_digit d) = true.
Proof.
  intros Hd. unfold is_hex_digit, Sha1.hex_digit.
  destruct (N.ltb_spec d 10); apply orb_true_iff; [left|right];
    apply andb_true_iff; split; apply N.leb_le; lia.
Qed.

Lemma be_bytes_small (count : nat) (x : N) :
  Forall (fun b => b < 256) (Sha1.be_bytes count x).
Proof.
  unfold Sha1.be_bytes. apply Forall_forall. intros b Hb.
  apply list_elem_of_In, in_map_iff in Hb as (i & <- & _).
  apply N.mod_lt. discriminate.
Qed.

Lemma hex_of_bytes (bytes : list N) :
  Forall (fun b => b < 256) bytes →
  Forall (fun c => is_hex_digit c = true) (Sha1.hex bytes).
Proof.
  induction 1 as [|b bytes Hb _ IH]; [constructor|].
  unfold Sha1.hex. simpl. fold (Sha1.hex bytes).
  constructor; [|constructor; [|exact IH]]; apply hex_digit_is_hex.
  - apply N.Div0.div_lt_upper_bound. lia.
  - apply N.mod_lt. discriminate.
Qed.

Lemma digest_small (msg : list N) : Forall (fun b => b < 256) (Sha1.digest msg).
Proof.
  unfold Sha1.digest. cbv zeta.
  set (h := fold_left Sha1.compress _ _).
  generalize [Sha1.ha h; Sha1.hb h; Sha1.hc h; Sha1.hd h; Sha1.he h].
  intros l. induction l as [|x l IH]; [constructor|].
  change (flat_map (Sha1.be_bytes 4) (x :: l))
    with (Sha1.be_bytes 4 x ++ flat_map (Sha1.be_bytes 4) l).
  apply Forall_app. split; [apply be_bytes_small|exact IH].
Qed.

Lemma hashFn_hex {B} (fn : Fn B) :
  Forall (fun c => is_hex_digit c = true) (hashFn fn).
Proof.
  unfold hashFn, slice_to. apply Forall_take.
  unfold Sha1.sha1_hex. apply hex_of_bytes, digest_small.
Qed.

(** The identifier of a handler is ten lowercase hexadecimal digits, so the
    path of an endpoint needs no escaping in a URL or in an attribute. *)
Theorem hashFn_ten_hex_digits {B} (fn : Fn B) :
  length (hashFn fn) = 10%nat
  ∧ Forall (fun c => is_hex_digit c = true) (hashFn fn).
Proof. split; [apply length_hashFn|apply hashFn_hex]. Qed.

(** ** The registry and the routes after any calls *)

Lemma htmx_registry (config : HTMXRouterConfig) (opts : HTMXRouteOptions) (st : Router) :
  routeRegistry (snd (htmx config opts st))
  = if Map_has (routeRegistry st) (path_of config opts)
    then routeRegistry st
    else routeRegistry st ++ [entry_of config opts].
Proof.
  destruct (Map_has (routeRegistry st) (path_of config opts)) eqn:Hhas.
  - rewrite htmx_registered by exact Hhas. reflexivity.
  - destruct (app_route (route_of config opts) (server st)) as [e|a] eqn:Ha.
    + apply (htmx_refused config opts st e Hhas Ha).
    + apply (htmx_accepted config opts st a Hhas Ha).
Qed.

(** The keys of the registry are the paths of the calls of [htmx] so far,
    each once, in the order of their first calls. *)
Lemma run_first_paths (config : HTMXRouterConfig) (calls : list Call) (st : Router) :
  Map_keys (routeRegistry (fold_left (step config) calls st))
  = fold_left
      (fun paths c =>
         match c with
         | CallHtmx opts =>
             if bool_decide (path_of config opts ∈ paths) then paths
             else paths ++ [path_of config opts]
         | CallStart => paths
         end)
      calls (Map_keys (routeRegistry st)).
Proof.
  revert st. induction calls as [|[opts|] calls IH]; intros st.
  - reflexivity.
  - change (fold_left (step config) (CallHtmx opts :: calls) st)
      with (fold_left (step config) calls (snd (htmx config opts st))).
    rewrite IH. simpl. f_equal.
    rewrite htmx_registry, Map_has_elem. unfold Map_keys.
    case_bool_decide; [reflexivity|]. rewrite map_app. reflexivity.
  - change (fold_left (step config) (CallStart :: calls) st)
      with (fold_left (step config) calls (start config st)).
    rewrite IH. simpl. f_equal.
    destruct (start_keeps_routes config st) as [-> _]. reflexivity.
Qed.

Lemma lifetime_first_paths (config : HTMXRouterConfig) (c : Console)
    (calls : list Call) :
  Map_keys (routeRegistry (fold_left (step config) calls (createHTMXRouter config c)))
  = first_paths config calls.
Proof.
  rewrite run_first_paths.
  destruct (created_registered_by config c) as (-> & _). reflexivity.
Qed.


(** Every route that the router adds is mounted under the prefix, unless
    its route options carry a URL of their own: its URL is then the prefix
    ([/api] when none is configured), a slash and ten hexadecimal digits;
    and unless its route options carry a method of their own, its method is
    one of the five of the type. *)
Theorem added_routes_under_prefix (config : HTMXRouterConfig) (c : Console)
    (calls : list Call) :
  let st0 := createHTMXRouter config c in
  let st := fold_left (step config) calls st0 in
  ∃ added,
    routes (server st) = routes (server st0) ++ added
    ∧ Forall
        (fun r =>
           (route_options r ≫= options_url = None →
            ∃ id, route_url r = default (js "/api") (prefix config) ++ js "/" ++ id
                  ∧ length id = 10%nat
                  ∧ Forall (fun c => is_hex_digit c = true) id)
           ∧ (route_options r ≫= options_method = None →
              ∃ m, route_method r = method_name m))
        added.
Proof.
  intros st0 st.
  destruct (lifetime_registered_by config c calls) as (regs & (_ & _ & Hroutes) & _).
  exists (map (route_of config) (accepted regs)).
  split; [exact Hroutes|]. apply Forall_map, Forall_forall. intros opts _.
  simpl. split.
  - intros ->. exists (hashFn (handler opts)).
    split; [reflexivity|]. split; [apply length_hashFn|apply hashFn_hex].
  - intros ->. exists (default POST (method opts)). apply method_of_name.
Qed.

(** ** [createHTMXRouter] and the instance it is given *)


Lemma htmx_keeps_instance (config : HTMXRouterConfig) (opts : HTMXRouteOptions)
    (st : Router) :
  let st' := snd (htmx config opts st) in
  server_options (server st') = server_options (server st)
  ∧ plugins (server st') = plugins (server st)
  ∧ listening (server st') = listening (server st)
  ∧ exit_code st' = exit_code st.
Proof.
  cbv zeta. destruct (Map_has (routeRegistry st) (path_of config opts)) eqn:Hhas.
  - rewrite htmx_registered by exact Hhas. auto.
  - destruct (app_route (route_of config opts) (server st)) as [e|a] eqn:Ha.
    + destruct (htmx_refused config opts st e Hhas Ha) as (_ & _ & -> & ->). auto.
    + destruct (htmx_accepted config opts st a Hhas Ha) as (_ & _ & -> & ->). auto.
Qed.




(** ** What a call of [htmx] writes *)

(** A call of [htmx] writes to the console only in debug mode and only when
    it registers a route, and then two tagged lines on the standard output;
    it never writes to the error stream, and it leaves the exit code, the
    plugins and the listening state as they are. *)
Theorem htmx_is_quiet (config : HTMXRouterConfig) (opts : HTMXRouteOptions)
    (st : Router) :
  let st' := snd (htmx config opts st) in
  (∃ lines, console st' = console st ++ lines
            ∧ Forall (fun l => ∃ args, l = (Stdout, LString (js "[HTMX]") :: args)) lines
            ∧ length lines
              = if default false (debug config)
                   && negb (Map_has (routeRegistry st) (path_of config opts))
                then 2%nat else 0%nat)
  ∧ exit_code st' = exit_code st
  ∧ plugins (server st') = plugins (server st)
  ∧ listening (server st') = listening (server st).
Proof.
  intros st'. destruct (htmx_keeps_instance config opts st) as (_ & Hp & Hl & He).
  split; [|auto]. unfold st', htmx. cbv zeta.
  destruct (Map_has (routeRegistry st) (path_of config opts)); simpl.
  - exists []. rewrite app_nil_r, andb_false_r. auto.
  - assert (Hlines : ∃ lines,
      log (default false (debug config))
        [LString (js "Route options:");
         LRouteOptions (default (js "body") (target opts))
           (default (js "innerHTML") (swap_name <$> swap opts)) (vals opts)]
        (log (default false (debug config))
           [LString (js "Registering new route: " ++ method_of opts ++ js " "
                       ++ path_of config opts)]
           (console st))
      = console st ++ lines
      ∧ Forall (fun l => ∃ args, l = (Stdout, LString (js "[HTMX]") :: args)) lines
      ∧ length lines = if default false (debug config) && true then 2%nat else 0%nat).
    { unfold log. destruct (default false (debug config)); simpl.
      - eexists [_; _]. unfold console_log. rewrite <- app_assoc. simpl.
        split; [reflexivity|]. split; [|reflexivity].
        repeat constructor; eexists; reflexivity.
      - exists []. rewrite app_nil_r. auto. }
    destruct (app_route _ _); simpl; exact Hlines.
Qed.

(** ** The endpoint when nothing throws *)

(** When the handler returns an element and the element renders to [html],
    the endpoint sets the content type to [text/html] and sends [html]; it
    sets no status and writes nothing to the error stream; in debug mode it
    prints the number of code units of [html]. *)
Theorem endpoint_sends_markup (debug : bool) (method path : jsstring)
    (opts : HTMXRouteOptions) (req : FastifyRequest) (w w1 : World)
    (jsx : ReactElement) (html : jsstring) :
  call (handler opts) (mkArgs (request_data opts req) req)
    (at_try debug method path req w) = (inr jsx, w1) →
  renderToStaticMarkup jsx = inr html →
  endpoint debug method path opts req w
  = (inr tt,
     mkWorld
       (if debug
        then w_console w1
               ++ [(Stdout, [LString (js "[HTMX]");
                             LString (js "Generated HTML response length:");
                             LNumber (N.of_nat (length html))])]
        else w_console w1)
       (w_res w1 ++ [Header (js "Content-Type") (js "text/html"); Send html])).
Proof.
  intros Hcall Hrender. rewrite endpoint_at_try.
  unfold try_catch, respond, bind. rewrite Hcall, Hrender. simpl.
  destruct debug; reflexivity.
Qed.

(** ** The data record at its edges *)

(** A request without a body is handled with the default values alone;
    options without default values hand the body on as it is; and the keys
    of the data record are those of the defaults and of the body together. *)
Theorem request_data_edges (opts : HTMXRouteOptions) (req : FastifyRequest) :
  (req_body req = None → request_data opts req = default ∅ (vals opts))
  ∧ (vals opts = None → request_data opts req = default ∅ (req_body req))
  ∧ dom (request_data opts req)
    = dom (default ∅ (vals opts)) ∪ dom (default ∅ (req_body req)).
Proof.
  unfold request_data, spread. repeat split.
  - intros ->. simpl. apply (left_id_L ∅ (∪)).
  - intros ->. simpl. apply (right_id_L ∅ (∪)).
  - rewrite dom_union_L. apply (comm_L (∪)).
Qed.

(** ** The whole attribute record *)

Lemma fold_insert_lookup_Some (entries : list (jsstring * jsstring)) (o : Attrs)
    (name : jsstring) (v : JsVal) :
  fold_left (fun o e => <[fst e := JString (snd e)]> o) entries o !! name = Some v →
  o !! name = Some v ∨ ∃ e, e ∈ entries ∧ fst e = name.
Proof.
  revert o. induction entries as [|e entries IH]; intros o H; simpl in H; [auto|].
  apply IH in H as [H|(e' & He' & Hname)].
  - destruct (decide (fst e = name)) as [Heq|Hne].
    + right. exists e. split; [left|exact Heq].
    + left. rewrite lookup_insert_ne in H by exact Hne. exact H.
  - right. exists e'. split; [right; exact He'|exact Hname].
Qed.

Lemma hxOnHandlers_Some (opts : HTMXRouteOptions) (name : jsstring) (v : JsVal) :
  hxOnHandlers opts !! name = Some v →
  ∃ k h, on_value (on opts) k = Some h
         ∧ name = convertToHXAttribute (key_name k)
         ∧ v = JString (handlerString (toString h)).
Proof.
  intros H. pose proof H as H'.
  rewrite hxOnHandlers_on_keys in H'. unfold Object_fromEntries in H'.
  apply fold_insert_lookup_Some in H' as [H'|(e & He & Hname)].
  { rewrite lookup_empty in H'. discriminate H'. }
  apply list_elem_of_omap in He as (k & _ & Hentry).
  apply hx_on_entry_name in Hentry. rewrite Hname in Hentry. subst name.
  rewrite hxOnHandlers_on_keys, fromEntries_on_keys in H.
  destruct (decide _); [|discriminate H].
  destruct (on_value (on opts) k) as [h|] eqn:Hv; [|discriminate H].
  exists k, h. simpl in H. split; [exact Hv|]. split; [reflexivity|]. congruence.
Qed.

(** The record that [htmx] returns has no other properties than the
    trigger attribute, [hx-target], [hx-swap], [hx-vals], and one attribute
    for each key of [OnHandlers] whose value is a function. *)
Theorem attributes_are_only_these (config : HTMXRouterConfig)
    (opts : HTMXRouteOptions) (st : Router) (attrs : Attrs) (name : jsstring)
    (v : JsVal) :
  fst (htmx config opts st) = inr attrs →
  attrs !! name = Some v →
  (name = trigger_name (default POST (method opts))
   ∧ v = JString (path_of config opts))
  ∨ (name = js "hx-target" ∧ v = JString (default (js "body") (target opts)))
  ∨ (name = js "hx-swap"
     ∧ v = JString (default (js "innerHTML") (swap_name <$> swap opts)))
  ∨ (name = js "hx-vals" ∧ v = JSON_stringify (vals opts))
  ∨ ∃ k h, on_value (on opts) k = Some h
           ∧ name = convertToHXAttribute (key_name k)
           ∧ v = JString (handlerString (toString h)).
Proof.
  intros Hret. apply htmx_returns in Hret. subst attrs.
  unfold hxAttributes, spread. rewrite hxAttr_trigger_name.
  intros H. apply lookup_union_Some_raw in H as [H|[_ H]].
  { right. right. right. right. apply hxOnHandlers_Some. exact H. }
  apply lookup_insert_Some in H as [[<- <-]|[_ H]]; [auto 10|].
  apply lookup_insert_Some in H as [[<- <-]|[_ H]]; [auto 10|].
  apply lookup_insert_Some in H as [[<- <-]|[_ H]]; [auto 10|].
  apply lookup_insert_Some in H as [[<- <-]|[_ H]]; [auto 10|].
  rewrite lookup_empty in H. discriminate H.
Qed.

(** For every key of [OnHandlers], the attribute of its name is there with
    the text made of the handler when the value of the key is a function,
    and is not there when the key is absent or its value is [undefined]. *)
Theorem event_handler_attributes (config : HTMXRouterConfig)
    (opts : HTMXRouteOptions) (st : Router) (attrs : Attrs) (k : OnKey) :
  fst (htmx config opts st) = inr attrs →
  attrs !! convertToHXAttribute (key_name k)
  = (fun h => JString (handlerString (toString h))) <$> on_value (on opts) k.
Proof.
  intros Hret. apply htmx_returns in Hret. subst attrs.
  destruct (on_value (on opts) k) as [h|] eqn:Hv.
  - exact (on_handler_attribute config opts k h Hv).
  - exact (on_handler_absent config opts k Hv).
Qed.

(** The names of the attributes never collide: [convertToHXAttribute] gives
    different keys of [OnHandlers] different names, every name it gives,
    for any string, begins with [hx-on:], and none is the name of a trigger
    attribute, [hx-target], [hx-swap] or [hx-vals]. *)
Theorem attribute_names_are_distinct :
  (∀ k1 k2 : OnKey,
     convertToHXAttribute (key_name k1) = convertToHXAttribute (key_name k2) → k1 = k2)
  ∧ (∀ key : jsstring, startsWith (js "hx-on:") (convertToHXAttribute key) = true)
  ∧ (∀ (key : jsstring) (m : Method),
       convertToHXAttribute key ≠ trigger_name m
       ∧ convertToHXAttribute key ≠ js "hx-target"
       ∧ convertToHXAttribute key ≠ js "hx-swap"
       ∧ convertToHXAttribute key ≠ js "hx-vals").
Proof.
  split; [apply convertToHXAttribute_inj|]. split; [apply convertToHXAttribute_hx_on|].
  intros key m. pose proof (convertToHXAttribute_hx_on key) as Hon.
  repeat split; intros Heq; rewrite Heq in Hon;
    first [discriminate Hon | rewrite trigger_name_not_hx_on in Hon; discriminate Hon].
Qed.

(** ** The two copies of the adapter *)

Lemma attrbs_same (config : HTMXRouterConfig) (opts : HTMXRouteOptions) :
  Part000.attrbs config opts = hxAttributes config opts.
Proof.
  unfold Part000.attrbs, hxAttributes.
  rewrite hxAttr_trigger_name, part000_hxAttr_trigger_name. reflexivity.
Qed.

Lemma created_same (config : HTMXRouterConfig) (c c' : Console) :
  same_registrations (createHTMXRouter config c) (Part000.createHTMXRouter config c').
Proof.
  unfold same_registrations, createHTMXRouter, Part000.createHTMXRouter.
  destruct (default true (useFormbody config)), (entryPoint config); simpl;
    repeat split.
Qed.

(** On routers with the same registrations, the two copies of [htmx] return
    or throw the same and leave routers with the same registrations. *)
Lemma htmx_same (config : HTMXRouterConfig) (opts : HTMXRouteOptions)
    (st st' : Router) :
  same_registrations st st' →
  fst (Part000.htmx config opts st') = fst (htmx config opts st)
  ∧ same_registrations (snd (htmx config opts st)) (snd (Part000.htmx config opts st')).
Proof.
  intros (Hreg & Hroutes & Hso & Hpl & Hli & Hex).
  unfold same_registrations, htmx, Part000.htmx, app_route. cbv zeta.
  rewrite Hreg, Hli, Hroutes.
  change (route_shape (Part000.route_object (method_of opts) (path_of config opts) opts))
    with (route_shape (route_object (default false (debug config)) (method_of opts)
                         (path_of config opts) opts)).
  destruct (Map_has (routeRegistry st) (path_of config opts)); simpl.
  - rewrite attrbs_same. repeat split; assumption.
  - destruct (route_error _ _ _); simpl.
    + repeat split; assumption.
    + rewrite attrbs_same, !map_app, Hroutes. repeat split; assumption.
Qed.

Lemma start_same (config : HTMXRouterConfig) (st st' : Router) :
  same_registrations st st' →
  same_registrations (start config st) (Part000.start config st').
Proof.
  intros (Hreg & Hroutes & Hso & Hpl & Hli & Hex).
  unfold same_registrations, start, Part000.start. cbv zeta.
  destruct (listen_error _ _); simpl; repeat split; assumption.
Qed.

(** The two copies of the adapter return the same record: the [switch] of
    [part_000] and the lower-cased method of [htmx.ts] name the same
    trigger attribute; and on routers with the same registrations, when one
    copy throws the other throws the same. *)
Theorem copies_return_the_same_record (config : HTMXRouterConfig)
    (opts : HTMXRouteOptions) (st st' : Router) :
  (∀ a a', fst (htmx config opts st) = inr a →
           fst (Part000.htmx config opts st') = inr a' → a' = a)
  ∧ (same_registrations st st' →
     fst (Part000.htmx config opts st') = fst (htmx config opts st)).
Proof.
  split.
  - intros a a' Ha Ha'. apply htmx_returns in Ha. apply part000_htmx_returns in Ha'.
    subst a a'. apply attrbs_same.
  - intros Hsame. apply htmx_same, Hsame.
Qed.

(** ** The text of an event handler *)

Lemma match_star_nil (k : Regex.cls) (p : list Regex.item) (e : bool) :
  Regex.match_items ((k, Regex.Star) :: p) e [] = Regex.match_items p e [].
Proof. reflexivity. Qed.

Lemma matched_skip (k : Regex.cls) (q : Regex.quant) (p : list Regex.item)
    (e : bool) (s r : jsstring) :
  q ≠ Regex.Once → matched p e s r → matched ((k, q) :: p) e s r.
Proof.
  intros Hq (m & Hs & He & Hc). exists m. split; [exact Hs|]. split; [exact He|].
  intros c Hin. apply elem_of_cons in Hin as [Heq|Hin]; [congruence|auto].
Qed.

Lemma matched_take (k : Regex.cls) (q : Regex.quant) (p p' : list Regex.item)
    (e : bool) (c0 : N) (s r : jsstring) :
  Regex.accepts k c0 = true →
  (∀ c, (Regex.Char c, Regex.Once) ∈ (k, q) :: p →
        (Regex.Char c, Regex.Once) = (k, q) ∨ (Regex.Char c, Regex.Once) ∈ p') →
  matched p' e s r → matched ((k, q) :: p) e (c0 :: s) r.
Proof.
  intros Hk Hp (m & -> & He & Hc). exists (c0 :: m).
  split; [reflexivity|]. split; [exact He|].
  intros c Hin. apply Hp in Hin as [Heq|Hin].
  - injection Heq as <- _. simpl in Hk. apply N.eqb_eq in Hk. subst c0. left.
  - right. auto.
Qed.

Lemma match_items_matched (p : list Regex.item) (e : bool) (s r : jsstring) :
  Regex.match_items p e s = Some r → matched p e s r.
Proof.
  revert s r. induction p as [|[k q] p IH]; intros s r H.
  - simpl in H. exists [].
    destruct e; [destruct s; [|discriminate H]|]; injection H as <-;
      (split; [reflexivity|]);
      (split; [intros He; first [reflexivity | discriminate He]|]);
      intros c Hin; apply not_elem_of_nil in Hin; contradiction.
  - destruct q.
    + destruct s as [|c0 s]; simpl in H; [discriminate H|].
      destruct (Regex.accepts k c0) eqn:Hk; [|discriminate H].
      apply (matched_take k Regex.Once p p e c0 s r Hk); [|auto].
      intros c Hin. apply elem_of_cons in Hin. exact Hin.
    + assert (Hskip : ∀ s, Regex.match_items p e s = Some r →
                           matched ((k, Regex.Optional) :: p) e s r).
      { intros s' H'. apply matched_skip; [discriminate|auto]. }
      destruct s as [|c0 s]; simpl in H; [auto|].
      destruct (Regex.accepts k c0) eqn:Hk; [|auto].
      destruct (Regex.match_items p e s) as [r'|] eqn:Hm; [|auto].
      injection H as <-.
      apply (matched_take k Regex.Optional p p e c0 s r' Hk); [|auto].
      intros c Hin. apply elem_of_cons in Hin. exact Hin.
    + assert (Hskip : ∀ s, Regex.match_items p e s = Some r →
                           matched ((k, Regex.Star) :: p) e s r).
      { intros s' H'. apply matched_skip; [discriminate|auto]. }
      revert r H Hskip. induction s as [|c0 s IHs]; intros r H Hskip.
      * rewrite match_star_nil in H. auto.
      * rewrite match_star_cons in H.
        destruct (Regex.accepts k c0) eqn:Hk; [|auto].
        destruct (Regex.match_items ((k, Regex.Star) :: p) e s) as [r'|] eqn:Hm; [|auto].
        injection H as <-.
        apply (matched_take k Regex.Star p ((k, Regex.Star) :: p) e c0 s r' Hk).
        -- intros c Hin. right. exact Hin.
        -- apply IHs; [exact Hm|exact Hskip].
Qed.

(** A pattern anchored at the start that asks for a character the text
    does not have replaces nothing. *)
Lemma replace_needs (r : Regex.regex) (c : N) (s : jsstring) :
  Regex.at_start r = true → (Regex.Char c, Regex.Once) ∈ Regex.items r → c ∉ s →
  Regex.replace r [] s = s.
Proof.
  intros Hstart Hin Hc. unfold Regex.replace, Regex.exec. rewrite Hstart.
  destruct (Regex.match_items (Regex.items r) (Regex.at_end r) s) as [rest|] eqn:Hm;
    [|reflexivity].
  apply match_items_matched in Hm as (m & -> & _ & Hneed).
  exfalso. apply Hc, elem_of_app. left. apply Hneed, Hin.
Qed.

Lemma replace_start_suffix (r : Regex.regex) (s : jsstring) :
  Regex.at_start r = true → ∃ m, s = m ++ Regex.replace r [] s.
Proof.
  intros Hstart. unfold Regex.replace, Regex.exec. rewrite Hstart.
  destruct (Regex.match_items (Regex.items r) (Regex.at_end r) s) as [rest|] eqn:Hm.
  - apply match_items_matched in Hm as (m & -> & _). exists m. reflexivity.
  - exists []. reflexivity.
Qed.

Lemma search_split (r : Regex.regex) (s before rest : jsstring) :
  Regex.search r s = Some (before, rest) →
  ∃ m, s = before ++ m ++ rest ∧ (Regex.at_end r = true → rest = []).
Proof.
  revert before rest. induction s as [|c s IH]; intros before rest H; simpl in H.
  - destruct (Regex.match_items (Regex.items r) (Regex.at_end r) []) as [r'|] eqn:Hm;
      [|discriminate H].
    injection H as <- <-. apply match_items_matched in Hm as (m & Hs & He & _).
    exists m. auto.
  - destruct (Regex.match_items (Regex.items r) (Regex.at_end r) (c :: s)) as [r'|] eqn:Hm.
    + injection H as <- <-. apply match_items_matched in Hm as (m & Hs & He & _).
      exists m. auto.
    + destruct (Regex.search r s) as [[b' r']|] eqn:Hs; [|discriminate H].
      injection H as <- <-. destruct (IH b' r' eq_refl) as (m & -> & He).
      exists m. auto.
Qed.

Lemma replace_end_prefix (r : Regex.regex) (s : jsstring) :
  Regex.at_start r = false → Regex.at_end r = true →
  ∃ m, s = Regex.replace r [] s ++ m.
Proof.
  intros Hstart Hend. unfold Regex.replace, Regex.exec. rewrite Hstart.
  destruct (Regex.search r s) as [[before rest]|] eqn:Hs.
  - apply search_split in Hs as (m & -> & He). rewrite (He Hend).
    exists m. rewrite !app_nil_r. reflexivity.
  - exists []. symmetry. apply app_nil_r.
Qed.

Lemma trimStart_suffix (s : jsstring) : ∃ m, s = m ++ trimStart s.
Proof.
  induction s as [|c s [m IH]]; [exists []; reflexivity|]. simpl.
  destruct (is_space c); [|exists []; reflexivity].
  exists (c :: m). simpl. rewrite <- IH. reflexivity.
Qed.

Lemma trimStart_head (s : jsstring) (c : N) :
  head (trimStart s) = Some c → is_space c = false.
Proof.
  induction s as [|c0 s IH]; simpl; [discriminate|].
  destruct (is_space c0) eqn:Hc0; [exact IH|]. simpl. congruence.
Qed.

Lemma trimStart_keeps_last (l : jsstring) (c : N) :
  is_space c = false → ∃ l', trimStart (l ++ [c]) = l' ++ [c].
Proof.
  intros Hc. induction l as [|c0 l [l' IH]]; simpl.
  - rewrite Hc. exists []. reflexivity.
  - destruct (is_space c0); [exists l'; exact IH|].
    exists (c0 :: l). reflexivity.
Qed.

Lemma trimEnd_prefix (s : jsstring) : ∃ m, s = trimEnd s ++ m.
Proof.
  unfold trimEnd. destruct (trimStart_suffix (rev s)) as [m Hm].
  exists (rev m). rewrite <- rev_app_distr, <- Hm. symmetry. apply rev_involutive.
Qed.

Lemma trim_ends (s : jsstring) (c : N) :
  head (trim s) = Some c ∨ last (trim s) = Some c → is_space c = false.
Proof.
  unfold trim, trimEnd. intros [H|H].
  - destruct (trimStart s) as [|c0 t] eqn:Ht; [discriminate H|].
    assert (Hc0 : is_space c0 = false) by (apply (trimStart_head s); now rewrite Ht).
    simpl rev in H. destruct (trimStart_keeps_last (rev t) c0 Hc0) as [l' Hl'].
    rewrite Hl', rev_unit in H. simpl in H. congruence.
  - apply last_Some in H as [l' Hl'].
    apply (f_equal (@rev N)) in Hl'. rewrite rev_involutive, rev_unit in Hl'.
    apply (trimStart_head (rev (trimStart s))). rewrite Hl'. reflexivity.
Qed.

(** The text put in the attribute of an event handler is one piece of the
    source of the handler: the source is some text, the attribute, and some
    text; nothing is inserted, escaped or reordered.  The piece neither
    begins nor ends with white space. *)
Theorem handler_text_is_piece_of_source (source : jsstring) :
  (∃ before after, source = before ++ handlerString source ++ after)
  ∧ ∀ c, head (handlerString source) = Some c ∨ last (handlerString source) = Some c →
         is_space c = false.
Proof.
  split; [|apply trim_ends].
  unfold handlerString, trim.
  destruct (replace_start_suffix re_function_wrapper source eq_refl) as [m1 H1].
  set (s1 := Regex.replace re_function_wrapper [] source) in *.
  destruct (replace_start_suffix re_arrow_wrapper s1 eq_refl) as [m2 H2].
  set (s2 := Regex.replace re_arrow_wrapper [] s1) in *.
  destruct (replace_end_prefix re_closing_brace s2 eq_refl eq_refl) as [m3 H3].
  set (s3 := Regex.replace re_closing_brace [] s2) in *.
  destruct (trimStart_suffix s3) as [m4 H4].
  destruct (trimEnd_prefix (trimStart s3)) as [m5 H5].
  exists (m1 ++ m2 ++ m4), (m5 ++ m3).
  rewrite H1, H2, H3, H4 at 1. rewrite H5 at 1.
  rewrite <- !app_assoc. reflexivity.
Qed.

(** For an arrow function [(params) => {body}], whatever the body, the
    attribute is the body without the white space around it. *)
Theorem arrow_handler_gives_body (params body : jsstring) :
  Forall (fun c => c ≠ 41) params →
  handlerString (js "(" ++ params ++ js ") => {" ++ body ++ js "}") = trim body.
Proof. apply handlerString_arrow_body. Qed.

(** For a function expression [function (params) {body}], with any white
    space after [function] and before the brace, the attribute is the body
    without the white space around it, provided the body has no [>]: then
    the pattern for arrow functions finds nothing in it. *)
Theorem function_handler_gives_body (ws1 params ws2 body : jsstring) :
  Forall (fun c => is_space c = true) ws1 →
  Forall (fun c => c ≠ 41) params →
  Forall (fun c => is_space c = true) ws2 →
  62 ∉ body →
  handlerString
    (js "function" ++ ws1 ++ js "(" ++ params ++ js ")" ++ ws2 ++ js "{" ++ body ++ js "}")
  = trim body.
Proof.
  intros Hws1 Hparams Hws2 Hbody.
  set (p3 := [(Regex.Space, Regex.Star); (Regex.Char 123, Regex.Once)]).
  set (p2 := (Regex.NotChar 41, Regex.Star) :: (Regex.Char 41, Regex.Once) :: p3).
  set (p1 := (Regex.Space, Regex.Star) :: (Regex.Char 40, Regex.Once) :: p2).
  assert (Hnot : Forall (fun c => Regex.accepts (Regex.NotChar 41) c = true) params).
  { eapply Forall_impl; [exact Hparams|].
    intros c Hc. simpl. apply negb_true_iff, N.eqb_neq. exact Hc. }
  assert (H3 : Regex.match_items p3 false (ws2 ++ js "{" ++ body ++ js "}")
               = Some (body ++ js "}")).
  { apply match_star_takes; [exact Hws2|reflexivity]. }
  assert (H2 : Regex.match_items p2 false
                 (params ++ js ")" ++ ws2 ++ js "{" ++ body ++ js "}")
               = Some (body ++ js "}")).
  { apply match_star_takes; [exact Hnot|]. exact H3. }
  assert (H1 : Regex.match_items p1 false
                 (ws1 ++ js "(" ++ params ++ js ")" ++ ws2 ++ js "{" ++ body ++ js "}")
               = Some (body ++ js "}")).
  { apply match_star_takes; [exact Hws1|]. exact H2. }
  assert (Hfunction :
    Regex.replace re_function_wrapper []
      (js "function" ++ ws1 ++ js "(" ++ params ++ js ")" ++ ws2 ++ js "{"
         ++ body ++ js "}")
    = body ++ js "}").
  { unfold Regex.replace, Regex.exec. simpl Regex.at_start. cbv iota.
    change (Regex.match_items (Regex.items re_function_wrapper)
              (Regex.at_end re_function_wrapper)
              (js "function" ++ ws1 ++ js "(" ++ params ++ js ")" ++ ws2 ++ js "{"
                 ++ body ++ js "}"))
      with (Regex.match_items p1 false
              (ws1 ++ js "(" ++ params ++ js ")" ++ ws2 ++ js "{" ++ body ++ js "}")).
    rewrite H1. reflexivity. }
  assert (Harrow : Regex.replace re_arrow_wrapper [] (body ++ js "}") = body ++ js "}").
  { apply (replace_needs re_arrow_wrapper 62); [reflexivity| |].
    - unfold re_arrow_wrapper. simpl. repeat first [apply list_elem_of_here | apply list_elem_of_further].
    - intros Hin. apply elem_of_app in Hin as [Hin|Hin]; [contradiction|].
      apply list_elem_of_singleton in Hin. discriminate Hin. }
  unfold handlerString. rewrite Hfunction, Harrow.
  unfold Regex.replace, Regex.exec. simpl Regex.at_start. cbv iota.
  rewrite search_closing_brace, app_nil_r. reflexivity.
Qed.

(** ** [router.start] and the calls of [htmx] *)

(** In debug mode, when the server could listen, the last line that
    [router.start] prints lists the keys of the registry: the paths of the
    calls of [htmx] so far, each once, in the order of their first calls,
    whether or not the server took their routes. *)
Theorem start_prints_registered_routes (config : HTMXRouterConfig) (c : Console)
    (calls : list Call) :
  debug config = Some true →
  listen_error (default 3000 (port config)) (default (js "localhost") (host config))
    = None →
  let st := fold_left (step config) calls (createHTMXRouter config c) in
  last (console (start config st))
  = Some (Stdout, [LString (js "[HTMX]"); LString (js "Registered routes:");
                   LStrings (first_paths config calls)]).
Proof.
  intros Hdebug Hlisten st. subst st.
  rewrite <- (lifetime_first_paths config c calls).
  unfold start. rewrite Hlisten, Hdebug. simpl. unfold console_log.
  rewrite last_snoc. reflexivity.
Qed.



(** After the same calls, the copy of [part_000] and [htmx.ts] have the
    same registry, the same plugins, the same routes up to their handlers
    (the same methods, URLs and route options in the same order), the same
    listening state and the same exit code. *)
Theorem copies_register_the_same (config : HTMXRouterConfig) (c c' : Console)
    (calls : list Call) :
  same_registrations
    (fold_left (step config) calls (createHTMXRouter config c))
    (fold_left (part000_step config) calls (Part000.createHTMXRouter config c')).
Proof.
  generalize (created_same config c c').
  generalize (createHTMXRouter config c) (Part000.createHTMXRouter config c').
  induction calls as [|[opts|] calls IH]; intros st st' Hsame; simpl.
  - exact Hsame.
  - apply IH, htmx_same, Hsame.
  - apply IH, start_same, Hsame.
Qed.

(** With debug mode off, the endpoints of the two copies answer every
    request alike: they complete or throw alike and make the same calls on
    the reply; they differ in the text of the line on the error stream. *)
Theorem copies_answer_the_same (method path : jsstring) (opts : HTMXRouteOptions)
    (req : FastifyRequest) (w : World) :
  let a := endpoint false method path opts req w in
  let b := Part000.endpoint opts req w in
  fst a = fst b
  ∧ w_res (snd a) = w_res (snd b)
  ∧ length (w_console (snd a)) = length (w_console (snd b)).
Proof.
  unfold endpoint, Part000.endpoint, respond, Part000.respond, try_catch, bind,
    on_console, log. destruct w as [co re]. simpl.
  destruct (call (handler opts) _ _) as [[e|jsx] [co1 re1]]; simpl.
  - unfold logError, console_error. rewrite !length_app. auto.
  - unfold lift. destruct (renderToStaticMarkup jsx) as [e|html]; simpl.
    + unfold logError, console_error. rewrite !length_app. auto.
    + auto.
Qed.

(** ** One trigger attribute, one handler for a path *)

Lemma trigger_name_inj (m1 m2 : Method) : trigger_name m1 = trigger_name m2 → m1 = m2.
Proof. destruct m1, m2; intros H; first [reflexivity | discriminate H]. Qed.

(** The record has the trigger attribute of no other method than its own:
    of [hx-get], [hx-post], [hx-put], [hx-delete] and [hx-patch] it has
    exactly one. *)
Theorem one_trigger_attribute (config : HTMXRouterConfig) (opts : HTMXRouteOptions)
    (st : Router) (attrs : Attrs) (m : Method) :
  fst (htmx config opts st) = inr attrs →
  m ≠ default POST (method opts) →
  attrs !! trigger_name m = None
  ∧ is_Some (attrs !! trigger_name (default POST (method opts))).
Proof.
  intros Hret Hne. apply htmx_returns in Hret. subst attrs. split.
  - unfold hxAttributes, spread. rewrite hxAttr_trigger_name.
    destruct (trigger_name_fresh m) as (H1 & H2 & H3).
    apply lookup_union_None_2.
    + apply hxOnHandlers_other, trigger_name_not_hx_on.
    + rewrite !lookup_insert_ne; [apply lookup_empty| | | |]; try congruence.
      intros Heq. apply trigger_name_inj in Heq. congruence.
  - destruct (hxAttributes_base config opts) as [-> _]. eauto.
Qed.

(** When two calls of [htmx] have handlers of the same path, the first on a
    router that has no route for it, and the first returns, the one route
    that the router has added is built from the options of the first call:
    its method, its route options, and the endpoint that calls its handler
    with its default values.  The handler, the method and the default
    values of the second call are not used by the server. *)
Theorem first_registration_is_served (config : HTMXRouterConfig)
    (opts1 opts2 : HTMXRouteOptions) (st : Router) (a1 : Attrs) :
  Map_has (routeRegistry st) (path_of config opts1) = false →
  path_of config opts1 = path_of config opts2 →
  fst (htmx config opts1 st) = inr a1 →
  let st2 := snd (htmx config opts2 (snd (htmx config opts1 st))) in
  routes (server st2) = routes (server st) ++ [route_of config opts1]
  ∧ routeRegistry st2 = routeRegistry st ++ [(path_of config opts1, handler opts1)].
Proof.
  intros Hnew Hpath Hret st2. subst st2.
  destruct (htmx_returned_new config opts1 st a1 Hnew Hret) as [a Ha].
  destruct (htmx_accepted config opts1 st a Hnew Ha) as (_ & Hreg & Hsrv & _).
  rewrite htmx_registered.
  - simpl. rewrite Hreg, Hsrv. split; reflexivity.
  - rewrite <- Hpath. apply htmx_leaves_registered.
Qed.

(** Route options that carry a URL or a method of their own replace those
    of the call: the route is added at that URL and under that method, and
    the record that the call returns still names the path made of the
    prefix and the content hash. *)
Theorem route_options_override (config : HTMXRouterConfig) (opts : HTMXRouteOptions)
    (st : Router) (attrs : Attrs) :
  Map_has (routeRegistry st) (path_of config opts) = false →
  fst (htmx config opts st) = inr attrs →
  ∃ r, routes (server (snd (htmx config opts st))) = routes (server st) ++ [r]
       ∧ route_options r = routeOptions opts
       ∧ (∀ u, routeOptions opts ≫= options_url = Some u → route_url r = u)
       ∧ (∀ m, routeOptions opts ≫= options_method = Some m → route_method r = m)
       ∧ attrs !! trigger_name (default POST (method opts))
         = Some (JString (path_of config opts)).
Proof.
  intros Hnew Hret.
  destruct (htmx_returned_new config opts st attrs Hnew Hret) as [a Ha].
  destruct (htmx_accepted config opts st a Hnew Ha) as (_ & _ & -> & _).
  apply htmx_returns in Hret. subst attrs.
  exists (route_of config opts). split; [reflexivity|]. split; [reflexivity|].
  split; [intros u Hu; simpl; rewrite Hu; reflexivity|].
  split; [intros m Hm; simpl; rewrite Hm; reflexivity|].
  apply hxAttributes_base.
Qed.

End Properties.
(** The path of the demo form. *)
Example demo_path :
  path_of Demo.config Demo.form = js "/api/" ++ hashFn Demo.RouteTest
  ∧ length (path_of Demo.config Demo.form) = 15%nat.
Proof. split; vm_compute; reflexivity. Qed.

Example demo_form_attributes :
  fst (htmx Demo.config Demo.form Demo.fresh) = inr (hxAttributes Demo.config Demo.form)
  ∧ hxAttributes Demo.config Demo.form !! js "hx-on::before-request"
    = Some (JString (js "alert(1);
        console.log(event);"))
  ∧ hxAttributes Demo.config Demo.form !! js "hx-target" = Some (JString (js "this")).
Proof. repeat split; vm_compute; reflexivity. Qed.

(** ** C1, as stated, fails *)


(** ** The theorems at work *)


Lemma attributes_trigger_target_swap_witness :
  fst (htmx Demo.config Demo.form Demo.fresh) = inr (hxAttributes Demo.config Demo.form)
  ∧ hxAttributes Demo.config Demo.form !! js "hx-post"
    = Some (JString (js "/api" ++ js "/" ++ hashFn Demo.RouteTest))
  ∧ hxAttributes Demo.config Demo.form !! js "hx-target" = Some (JString (js "this"))
  ∧ hxAttributes Demo.config Demo.form !! js "hx-swap" = Some (JString (js "outerHTML")).
Proof.
  assert (Hret : fst (htmx Demo.config Demo.form Demo.fresh)
                 = inr (hxAttributes Demo.config Demo.form)) by (vm_compute; reflexivity).
  split; [exact Hret|].
  exact (attributes_trigger_target_swap Demo.config Demo.form Demo.fresh _ Hret).
Defined.

Lemma hx_vals_undefined_witness :
  vals Demo.form = None
  ∧ fst (htmx Demo.config Demo.form Demo.fresh) = inr (hxAttributes Demo.config Demo.form)
  ∧ hxAttributes Demo.config Demo.form !! js "hx-vals" = Some JUndefined.
Proof.
  assert (Hret : fst (htmx Demo.config Demo.form Demo.fresh)
                 = inr (hxAttributes Demo.config Demo.form)) by (vm_compute; reflexivity).
  split; [reflexivity|]. split; [exact Hret|].
  exact (proj1 (hx_vals_undefined Demo.config Demo.form Demo.fresh eq_refl) _ Hret).
Defined.


Lemma endpoint_path_and_method_witness :
  Map_has (routeRegistry Demo.fresh) (path_of Demo.config Demo.form_get) = false
  ∧ fst (htmx Demo.config Demo.form_get Demo.fresh)
    = inr (hxAttributes Demo.config Demo.form_get)
  ∧ routeOptions Demo.form_get ≫= options_method = None
  ∧ routeOptions Demo.form_get ≫= options_url = None
  ∧ ∃ r, routes (server (snd (htmx Demo.config Demo.form_get Demo.fresh)))
         = routes (server Demo.fresh) ++ [r]
         ∧ route_url r = js "/api" ++ js "/" ++ hashFn Demo.RouteTest_twin
         ∧ route_method r = js "GET".
Proof.
  assert (Hret : fst (htmx Demo.config Demo.form_get Demo.fresh)
                 = inr (hxAttributes Demo.config Demo.form_get))
    by (vm_compute; reflexivity).
  split; [reflexivity|]. split; [exact Hret|]. split; [reflexivity|].
  split; [reflexivity|].
  exact (endpoint_path_and_method Demo.config Demo.form_get Demo.fresh _
           eq_refl Hret eq_refl eq_refl).
Defined.

Lemma path_is_content_hash_witness :
  toString (handler Demo.form) = toString (handler Demo.form_get)
  ∧ path_of Demo.config Demo.form = path_of Demo.config Demo.form_get.
Proof.
  split; [reflexivity|].
  apply (proj1 (path_is_content_hash Demo.config) Demo.form Demo.form_get).
  reflexivity.
Defined.

Lemma handler_data_prefers_body_witness :
  default ∅ (req_body Demo.request) !! js "message" = Some (js "Hi")
  ∧ default ∅ (vals Demo.greet) !! js "message" = Some (js "Hello")
  ∧ request_data Demo.greet Demo.request !! js "message" = Some (js "Hi")
  ∧ endpoint false (js "POST") (path_of Demo.config Demo.greet) Demo.greet
      Demo.request Demo.world
    = (inr tt,
       mkWorld []
         [Header (js "Content-Type") (js "text/html"); Send (js "<h1>Hi</h1>")]).
Proof.
  split; [reflexivity|]. split; [reflexivity|]. split.
  - apply (proj1 (handler_data_prefers_body Demo.greet Demo.request)). reflexivity.
  - etransitivity.
    + apply (proj1 (proj2 (proj2 (handler_data_prefers_body Demo.greet Demo.request)))).
    + vm_compute. reflexivity.
Defined.

Lemma handler_errors_become_500_witness :
  call (handler Demo.failing)
    (mkArgs (request_data Demo.failing Demo.no_body) Demo.no_body)
    (at_try false (js "POST") (path_of Demo.config Demo.failing) Demo.no_body Demo.world)
  = (inl Demo.error, Demo.world)
  ∧ endpoint false (js "POST") (path_of Demo.config Demo.failing) Demo.failing
      Demo.no_body Demo.world
    = (inr tt,
       mkWorld [(Stderr, [LString (js "[HTMX]"); LString (js "Handler error:");
                          LError Demo.error])]
         [Status 500; Send (js "Server error")]).
Proof.
  split; [reflexivity|].
  apply (proj1 (proj2 (proj2
           (handler_errors_become_500 false (js "POST")
              (path_of Demo.config Demo.failing) Demo.failing Demo.no_body Demo.world)))
           Demo.error Demo.world).
  reflexivity.
Defined.

(** ** C7, as stated, fails *)

(** C7, as stated.  Two calls, each on a new router, with handlers of the
    same content hash, one with the method [POST] and one with [GET],
    register endpoints of the same path and of different methods: the method
    is not determined by the content hash. *)
Lemma method_not_determined_by_hash :
  ¬ (∀ (config : @HTMXRouterConfig Demo.platform)
       (opts1 opts2 : @HTMXRouteOptions Demo.platform),
       hashFn (handler opts1) = hashFn (handler opts2) →
       first_endpoints config opts1 = first_endpoints config opts2).
Proof.
  intros H. specialize (H Demo.config Demo.form Demo.form_get eq_refl).
  vm_compute in H. discriminate H.
Qed.

(** ** C10 at a handler whose body holds an arrow function *)

(** C10.  For [onClick: function (event) { items.forEach(i => { i.hide(); }); }]
    the attribute [hx-on:click] is [i.hide(); });]: the second pattern, run
    on what the first left, takes the text up to the brace of the inner arrow
    function as one more wrapper.  The source with its wrapper and closing
    brace removed is [items.forEach(i => { i.hide(); });]. *)
Theorem on_click_body_is_cut :
  fst (htmx Demo.config Demo.hide_items Demo.fresh)
  = inr (hxAttributes Demo.config Demo.hide_items)
  ∧ hxAttributes Demo.config Demo.hide_items !! js "hx-on:click"
    = Some (JString (js "i.hide(); });"))
  ∧ Regex.replace re_function_wrapper []
      (js "function (event) { items.forEach(i => { i.hide(); }); }")
    = js " items.forEach(i => { i.hide(); }); }"
  ∧ Regex.replace re_arrow_wrapper [] (js " items.forEach(i => { i.hide(); }); }")
    = js " i.hide(); }); }".
Proof. repeat split; vm_compute; reflexivity. Qed.

(** ** The further properties at work *)


Lemma endpoint_sends_markup_witness :
  call (handler Demo.form) (mkArgs (request_data Demo.form Demo.request) Demo.request)
    (at_try false (js "POST") (path_of Demo.config Demo.form) Demo.request Demo.world)
  = (inr (Some (js "<h1>Hello </h1>")), Demo.world)
  ∧ endpoint false (js "POST") (path_of Demo.config Demo.form) Demo.form Demo.request
      Demo.world
    = (inr tt,
       mkWorld []
         [Header (js "Content-Type") (js "text/html"); Send (js "<h1>Hello </h1>")]).
Proof.
  split; [reflexivity|].
  apply (endpoint_sends_markup false (js "POST") (path_of Demo.config Demo.form)
           Demo.form Demo.request Demo.world Demo.world
           (Some (js "<h1>Hello </h1>")) (js "<h1>Hello </h1>"));
    reflexivity.
Defined.

Lemma request_data_edges_witness :
  req_body Demo.no_body = None
  ∧ request_data Demo.form_get Demo.no_body = default ∅ (vals Demo.form_get)
  ∧ vals Demo.form = None
  ∧ request_data Demo.form Demo.request = default ∅ (req_body Demo.request).
Proof.
  split; [reflexivity|].
  split; [apply (proj1 (request_data_edges Demo.form_get Demo.no_body)); reflexivity|].
  split; [reflexivity|].
  apply (proj1 (proj2 (request_data_edges Demo.form Demo.request))). reflexivity.
Defined.

Lemma attributes_are_only_these_witness :
  fst (htmx Demo.config Demo.form Demo.fresh) = inr (hxAttributes Demo.config Demo.form)
  ∧ hxAttributes Demo.config Demo.form !! js "hx-swap"
    = Some (JString (js "outerHTML"))
  ∧ ((js "hx-swap" = trigger_name (default POST (method Demo.form))
      ∧ JString (js "outerHTML") = JString (path_of Demo.config Demo.form))
     ∨ (js "hx-swap" = js "hx-target"
        ∧ JString (js "outerHTML") = JString (default (js "body") (target Demo.form)))
     ∨ (js "hx-swap" = js "hx-swap"
        ∧ JString (js "outerHTML")
          = JString (default (js "innerHTML") (swap_name <$> swap Demo.form)))
     ∨ (js "hx-swap" = js "hx-vals"
        ∧ JString (js "outerHTML") = JSON_stringify (vals Demo.form))
     ∨ ∃ k h, on_value (on Demo.form) k = Some h
              ∧ js "hx-swap" = convertToHXAttribute (key_name k)
              ∧ JString (js "outerHTML") = JString (handlerString (toString h))).
Proof.
  assert (Hret : fst (htmx Demo.config Demo.form Demo.fresh)
                 = inr (hxAttributes Demo.config Demo.form)) by (vm_compute; reflexivity).
  assert (Hswap : hxAttributes Demo.config Demo.form !! js "hx-swap"
                  = Some (JString (js "outerHTML"))) by (vm_compute; reflexivity).
  split; [exact Hret|]. split; [exact Hswap|].
  exact (attributes_are_only_these Demo.config Demo.form Demo.fresh _ _ _ Hret Hswap).
Defined.

Lemma event_handler_attributes_witness :
  fst (htmx Demo.config Demo.form Demo.fresh) = inr (hxAttributes Demo.config Demo.form)
  ∧ hxAttributes Demo.config Demo.form !! convertToHXAttribute (key_name onClick) = None.
Proof.
  assert (Hret : fst (htmx Demo.config Demo.form Demo.fresh)
                 = inr (hxAttributes Demo.config Demo.form)) by (vm_compute; reflexivity).
  split; [exact Hret|].
  exact (event_handler_attributes Demo.config Demo.form Demo.fresh _ onClick Hret).
Defined.

Lemma arrow_handler_gives_body_witness :
  Forall (fun c => c ≠ 41) (js "event")
  ∧ handlerString (js "(" ++ js "event" ++ js ") => {" ++ js " alert(1); " ++ js "}")
    = js "alert(1);".
Proof.
  assert (H : Forall (fun c => c ≠ 41) (js "event")) by (repeat constructor; discriminate).
  split; [exact H|].
  rewrite (arrow_handler_gives_body (js "event") (js " alert(1); ") H). reflexivity.
Defined.

Lemma function_handler_gives_body_witness :
  Forall (fun c => is_space c = true) (js " ")
  ∧ Forall (fun c => c ≠ 41) (js "event")
  ∧ (62 ∉ js " this.reset(); ")
  ∧ handlerString
      (js "function" ++ js " " ++ js "(" ++ js "event" ++ js ")" ++ js " " ++ js "{"
         ++ js " this.reset(); " ++ js "}")
    = js "this.reset();".
Proof.
  assert (H1 : Forall (fun c => is_space c = true) (js " ")) by (repeat constructor).
  assert (H2 : Forall (fun c => c ≠ 41) (js "event"))
    by (repeat constructor; discriminate).
  assert (H3 : 62 ∉ (js " this.reset(); ")).
  { intros Hin. apply list_elem_of_In in Hin. vm_compute in Hin.
    repeat (destruct Hin as [Hin|Hin]; [discriminate Hin|]). exact Hin. }
  split; [exact H1|]. split; [exact H2|]. split; [exact H3|].
  rewrite (function_handler_gives_body (js " ") (js "event") (js " ")
             (js " this.reset(); ") H1 H2 H1 H3).
  reflexivity.
Defined.

Lemma handler_text_is_piece_of_source_witness :
  head (handlerString (js "(e) => { go(); }")) = Some 103
  ∧ is_space 103 = false.
Proof.
  split; [reflexivity|].
  apply (proj2 (handler_text_is_piece_of_source (js "(e) => { go(); }")) 103).
  left. reflexivity.
Defined.


Lemma added_routes_under_prefix_witness :
  routeOptions Demo.form ≫= options_url = None
  ∧ ∃ added,
      routes (server (fold_left (step Demo.config) [CallHtmx Demo.form] Demo.fresh))
      = added
      ∧ Forall
          (fun r =>
             route_options r ≫= options_url = None →
             ∃ id, route_url r = js "/api" ++ js "/" ++ id ∧ length id = 10%nat)
          added.
Proof.
  split; [reflexivity|].
  destruct (added_routes_under_prefix Demo.config [] [CallHtmx Demo.form])
    as (added & Hroutes & Hall).
  exists added. split; [exact Hroutes|].
  eapply Forall_impl; [exact Hall|]. simpl. intros r [Hurl _] Hnone.
  destruct (Hurl Hnone) as (id & H1 & H2 & _). exists id. split; assumption.
Defined.

Lemma start_prints_registered_routes_witness :
  debug Demo.debug_config = Some true
  ∧ @listen_error Demo.platform (default 3000 (port Demo.debug_config))
      (default (js "localhost") (host Demo.debug_config)) = None
  ∧ last (console (start Demo.debug_config
                     (fold_left (step Demo.debug_config)
                        [CallHtmx Demo.form; CallStart; CallHtmx Demo.greet]
                        (createHTMXRouter Demo.debug_config []))))
    = Some (Stdout, [LString (js "[HTMX]"); LString (js "Registered routes:");
                     LStrings [path_of Demo.debug_config Demo.form;
                               path_of Demo.debug_config Demo.greet]]).
Proof.
  split; [reflexivity|]. split; [reflexivity|].
  exact (start_prints_registered_routes Demo.debug_config []
           [CallHtmx Demo.form; CallStart; CallHtmx Demo.greet] eq_refl eq_refl).
Defined.



Lemma copies_return_the_same_record_witness :
  fst (htmx Demo.config Demo.form Demo.fresh) = inr (hxAttributes Demo.config Demo.form)
  ∧ fst (Part000.htmx Demo.config Demo.form
           (snd (htmx Demo.config Demo.form Demo.started)))
    = inr (Part000.attrbs Demo.config Demo.form)
  ∧ Part000.attrbs Demo.config Demo.form = hxAttributes Demo.config Demo.form.
Proof.
  assert (H1 : fst (htmx Demo.config Demo.form Demo.fresh)
               = inr (hxAttributes Demo.config Demo.form)) by (vm_compute; reflexivity).
  assert (H2 : fst (Part000.htmx Demo.config Demo.form
                      (snd (htmx Demo.config Demo.form Demo.started)))
               = inr (Part000.attrbs Demo.config Demo.form)) by (vm_compute; reflexivity).
  split; [exact H1|]. split; [exact H2|].
  exact (proj1 (copies_return_the_same_record Demo.config Demo.form Demo.fresh
                  (snd (htmx Demo.config Demo.form Demo.started))) _ _ H1 H2).
Defined.

Lemma first_registration_is_served_witness :
  Map_has (routeRegistry Demo.fresh) (path_of Demo.config Demo.form) = false
  ∧ path_of Demo.config Demo.form = path_of Demo.config Demo.form_get
  ∧ fst (htmx Demo.config Demo.form Demo.fresh) = inr (hxAttributes Demo.config Demo.form)
  ∧ routes (server (snd (htmx Demo.config Demo.form_get
                           (snd (htmx Demo.config Demo.form Demo.fresh)))))
    = routes (server Demo.fresh) ++ [route_of Demo.config Demo.form].
Proof.
  assert (Hret : fst (htmx Demo.config Demo.form Demo.fresh)
                 = inr (hxAttributes Demo.config Demo.form)) by (vm_compute; reflexivity).
  split; [reflexivity|]. split; [reflexivity|]. split; [exact Hret|].
  exact (proj1 (first_registration_is_served Demo.config Demo.form Demo.form_get
                  Demo.fresh _ eq_refl eq_refl Hret)).
Defined.

Lemma one_trigger_attribute_witness :
  fst (htmx Demo.config Demo.form Demo.fresh) = inr (hxAttributes Demo.config Demo.form)
  ∧ GET ≠ default POST (method Demo.form)
  ∧ hxAttributes Demo.config Demo.form !! js "hx-get" = None.
Proof.
  assert (Hret : fst (htmx Demo.config Demo.form Demo.fresh)
                 = inr (hxAttributes Demo.config Demo.form)) by (vm_compute; reflexivity).
  assert (Hne : GET ≠ default POST (method Demo.form)) by discriminate.
  split; [exact Hret|]. split; [exact Hne|].
  exact (proj1 (one_trigger_attribute Demo.config Demo.form Demo.fresh _ GET Hret Hne)).
Defined.

Lemma route_options_override_witness :
  Map_has (routeRegistry Demo.fresh) (path_of Demo.config Demo.own_route) = false
  ∧ fst (htmx Demo.config Demo.own_route Demo.fresh)
    = inr (hxAttributes Demo.config Demo.own_route)
  ∧ ∃ r, routes (server (snd (htmx Demo.config Demo.own_route Demo.fresh))) = [r]
         ∧ route_url r = js "/evil"
         ∧ route_method r = js "PUT"
         ∧ hxAttributes Demo.config Demo.own_route !! js "hx-post"
           = Some (JString (js "/api/" ++ hashFn Demo.Greet)).
Proof.
  assert (Hret : fst (htmx Demo.config Demo.own_route Demo.fresh)
                 = inr (hxAttributes Demo.config Demo.own_route))
    by (vm_compute; reflexivity).
  split; [reflexivity|]. split; [exact Hret|].
  destruct (route_options_override Demo.config Demo.own_route Demo.fresh _ eq_refl Hret)
    as (r & Hroutes & _ & Hurl & Hmethod & Hattr).
  exists r. split; [exact Hroutes|]. split; [exact (Hurl _ eq_refl)|].
  split; [exact (Hmethod _ eq_refl)|exact Hattr].
Defined.

Lemma attribute_names_are_distinct_witness :
  convertToHXAttribute (key_name onKeyUp) = convertToHXAttribute (js "onKeyUp")
  ∧ onKeyUp = onKeyUp
  ∧ convertToHXAttribute (js "onKeyUp") ≠ js "hx-vals".
Proof.
  split; [reflexivity|].
  split; [apply (proj1 attribute_names_are_distinct onKeyUp onKeyUp); reflexivity|].
  apply (proj2 (proj2 attribute_names_are_distinct) (js "onKeyUp") POST).
Defined.
